(** * DeepRP client store: stream ingestion and reconciliation

    A shallow embedding of [client/src/stores/appStore.js]: the two
    stream-reading actions [sendMessage] and [regenerateMessage], the
    [stopStreaming] action, and the store fields they touch.

    Conventions.
    - A JavaScript string is held as the bytes of its UTF-8 encoding
      (a Rocq [string]).  The store only concatenates, compares, splits at
      line feeds, strips an ASCII prefix and trims white space, all of
      which can be done on UTF-8.
    - [set(...)] of the zustand store is a function [Store -> Store]; the
      [let] variables of an action ([assistantContent], [assistantMsgId],
      [buffer], ...) are threaded next to the store.
    - An [await] is a point where other actions may run: each action is cut
      into the pieces that run between two awaits. *)

From Stdlib Require Import String Ascii List Bool Arith Lia.
Import ListNotations.
Open Scope list_scope.
Open Scope string_scope.

(** ** Strings as the code uses them *)

(** The line feed, the separator of [split('\n')]. *)
Definition LF : ascii := ascii_of_nat 10.
Definition nl : string := String LF EmptyString.

(** The double quote of JSON texts. *)
Definition dquote : ascii := ascii_of_nat 34.

(** [js] writes a JSON text with apostrophes in place of double quotes. *)
Fixpoint js (s : string) : string :=
  match s with
  | EmptyString => EmptyString
  | String a r => String (if Ascii.eqb a "'"%char then dquote else a) (js r)
  end.

(** [s.split(c)]: never empty, the last element is the text after the last
    separator. *)
Fixpoint split (c : ascii) (s : string) : list string :=
  match s with
  | EmptyString => [EmptyString]
  | String a r =>
      if Ascii.eqb a c then EmptyString :: split c r
      else match split c r with
           | [] => [String a EmptyString]
           | h :: t => String a h :: t
           end
  end.

(** [line.startsWith(p)]. *)
Definition startsWith (p line : string) : bool := prefix p line.

(** [line.slice(n)] for [0 <= n]. *)
Definition slice (n : nat) (s : string) : string :=
  substring n (String.length s - n) s.

Definition rev_string (s : string) : string :=
  string_of_list_ascii (rev (list_ascii_of_string s)).

(** White space and line terminators of ECMAScript, in UTF-8:
    U+0009..U+000D and U+0020 take one byte, U+00A0 two, and U+1680,
    U+2000..U+200A, U+2028, U+2029, U+202F, U+205F, U+3000, U+FEFF three. *)
Definition ws1 (a : ascii) : bool :=
  let n := nat_of_ascii a in (((9 <=? n) && (n <=? 13)) || (n =? 32))%nat.

Definition ws2 (a b : ascii) : bool :=
  ((nat_of_ascii a =? 194) && (nat_of_ascii b =? 160))%nat.

Definition ws3 (a b c : ascii) : bool :=
  let x := nat_of_ascii a in
  let y := nat_of_ascii b in
  let z := nat_of_ascii c in
  (((x =? 225) && (y =? 154) && (z =? 128))
   || ((x =? 226) && (y =? 128) &&
       (((128 <=? z) && (z <=? 138)) || (z =? 168) || (z =? 169) || (z =? 175)))
   || ((x =? 226) && (y =? 129) && (z =? 159))
   || ((x =? 227) && (y =? 128) && (z =? 128))
   || ((x =? 239) && (y =? 187) && (z =? 191)))%nat.

(** Strips white space from the front; with [back] the text is read from
    its end, so the bytes of a character come in reverse. *)
Fixpoint strip (back : bool) (s : string) : string :=
  match s with
  | EmptyString => s
  | String a r =>
      if ws1 a then strip back r
      else match r with
           | EmptyString => s
           | String b r2 =>
               if (if back then ws2 b a else ws2 a b) then strip back r2
               else match r2 with
                    | EmptyString => s
                    | String c r3 =>
                        if (if back then ws3 c b a else ws3 a b c)
                        then strip back r3 else s
                    end
           end
  end.

(** [s.trim()]. *)
Definition trim (s : string) : string :=
  rev_string (strip true (rev_string (strip false s))).

(** ** Data model *)

Inductive Role : Set := user | assistant.

(** A message of the conversation.  [image_url] and [isError] are absent on
    a fresh message: [None] and [false]. *)
Module Message.
Record t : Set := mk {
  id : string;
  role : Role;
  content : string;
  timestamp : string;
  image_url : option string;
  isError : bool
}.

(** [{ ...m, content: c }] *)
Definition with_content (c : string) (m : t) : t :=
  mk (id m) (role m) c (timestamp m) (image_url m) (isError m).

(** [{ ...m, id: i }] *)
Definition with_id (i : string) (m : t) : t :=
  mk i (role m) (content m) (timestamp m) (image_url m) (isError m).

(** [{ ...m, image_url: u }] *)
Definition with_image_url (u : string) (m : t) : t :=
  mk (id m) (role m) (content m) (timestamp m) (Some u) (isError m).

(** [{ ...m, content: c, isError: true }] *)
Definition with_error (c : string) (m : t) : t :=
  mk (id m) (role m) c (timestamp m) (image_url m) true.

(** [{ ...m, id: i, content: '' }] *)
Definition reset (i : string) (m : t) : t :=
  mk i (role m) "" (timestamp m) (image_url m) (isError m).
End Message.

Abbreviation Message := Message.t.

(** An entry of [sessionImages]. *)
Module Image.
Record t : Set := mk { url : string; messageId : string }.
End Image.

Abbreviation Image := Image.t.

(** A chat session as the store sees it: only its id is read. *)
Module Session.
Record t : Set := mk { id : string }.
End Session.

Abbreviation Session := Session.t.

(** The record a frame carries, read at the types of the wire contract:
    every field is optional; all are strings but [done]. *)
Module Event.
Record t : Set := mk {
  stage : option string;
  type : option string;
  content : option string;
  prompt : option string;
  url : option string;
  message_id : option string;
  done : option bool;
  processed_content : option string;
  error : option string
}.

(** The record [{}]. *)
Definition empty : t := mk None None None None None None None None None.
End Event.

Abbreviation Event := Event.t.

(** The fields of the store that the streaming actions read or write. *)
Record Store : Set := mkStore {
  sessions : list Session;
  activeSession : option Session;
  messages : list Message;
  isStreaming : bool;
  agentStage : option string;
  directorOutput : string;
  paintDirectorOutput : string;
  showDirectorPopup : bool;
  showPaintDirectorPopup : bool;
  sessionImages : list Image
}.

Definition set_messages (ms : list Message) (s : Store) : Store :=
  mkStore (sessions s) (activeSession s) ms (isStreaming s) (agentStage s)
    (directorOutput s) (paintDirectorOutput s) (showDirectorPopup s)
    (showPaintDirectorPopup s) (sessionImages s).

Definition set_isStreaming (b : bool) (s : Store) : Store :=
  mkStore (sessions s) (activeSession s) (messages s) b (agentStage s)
    (directorOutput s) (paintDirectorOutput s) (showDirectorPopup s)
    (showPaintDirectorPopup s) (sessionImages s).

Definition set_agentStage (a : option string) (s : Store) : Store :=
  mkStore (sessions s) (activeSession s) (messages s) (isStreaming s) a
    (directorOutput s) (paintDirectorOutput s) (showDirectorPopup s)
    (showPaintDirectorPopup s) (sessionImages s).

Definition set_directorOutput (o : string) (s : Store) : Store :=
  mkStore (sessions s) (activeSession s) (messages s) (isStreaming s)
    (agentStage s) o (paintDirectorOutput s) (showDirectorPopup s)
    (showPaintDirectorPopup s) (sessionImages s).

Definition set_paintDirectorOutput (o : string) (s : Store) : Store :=
  mkStore (sessions s) (activeSession s) (messages s) (isStreaming s)
    (agentStage s) (directorOutput s) o (showDirectorPopup s)
    (showPaintDirectorPopup s) (sessionImages s).

Definition set_showDirectorPopup (b : bool) (s : Store) : Store :=
  mkStore (sessions s) (activeSession s) (messages s) (isStreaming s)
    (agentStage s) (directorOutput s) (paintDirectorOutput s) b
    (showPaintDirectorPopup s) (sessionImages s).

Definition set_showPaintDirectorPopup (b : bool) (s : Store) : Store :=
  mkStore (sessions s) (activeSession s) (messages s) (isStreaming s)
    (agentStage s) (directorOutput s) (paintDirectorOutput s)
    (showDirectorPopup s) b (sessionImages s).

Definition set_sessionImages (l : list Image) (s : Store) : Store :=
  mkStore (sessions s) (activeSession s) (messages s) (isStreaming s)
    (agentStage s) (directorOutput s) (paintDirectorOutput s)
    (showDirectorPopup s) (showPaintDirectorPopup s) l.

(** ** Truthiness and strict equality on optional fields *)

(** [if (event.f)] for a string field: absent and the empty string are
    falsy. *)
Definition truthy (v : option string) : bool :=
  match v with
  | Some (String _ _) => true
  | _ => false
  end.

(** [if (event.done)]. *)
Definition truthyB (v : option bool) : bool :=
  match v with
  | Some b => b
  | None => false
  end.

(** [event.f === 'lit'] *)
Definition strict_eq (v : option string) (lit : string) : bool :=
  match v with
  | Some s => String.eqb s lit
  | None => false
  end.

(** The string read from a field that was tested truthy. *)
Definition text (v : option string) : string :=
  match v with
  | Some s => s
  | None => EmptyString
  end.

(** [messages.map(m => m.id === i ? f(m) : m)] *)
Definition update_id (i : string) (f : Message -> Message)
  (ms : list Message) : list Message :=
  map (fun m => if String.eqb (Message.id m) i then f m else m) ms.

(** The prefix of the error text shown in a message: a warning sign
    (U+26A0 U+FE0F), then [ Error: ]. *)
Definition error_text (e : string) : string := "⚠️ Error: " ++ e.

(** ** sendMessage: the handler of one parsed record

    The body of the [try] block after [JSON.parse], one definition per [if]
    of the source, in the order of the source. *)

(** The [let] variables of [sendMessage] that the handler reads and
    writes. *)
Record Turn : Set := mkTurn {
  assistantContent : string;
  assistantMsgId : string
}.

(** [if (event.stage)]: the stage marker, and the two popups. *)
Definition stage_change (e : Event) (s : Store) : Store :=
  if truthy (Event.stage e) then
    let s1 := set_agentStage (Event.stage e) s in
    let s2 :=
      if strict_eq (Event.stage e) "director"
      then set_directorOutput "" (set_showDirectorPopup true s1)
      else s1 in
    if strict_eq (Event.stage e) "paint_director"
    then set_paintDirectorOutput "" (set_showPaintDirectorPopup true s2)
    else s2
  else s.

(** The guards of the two branches that end in [continue] after an append. *)
Definition is_director_chunk (e : Event) : bool :=
  strict_eq (Event.type e) "director_chunk" && truthy (Event.content e).

Definition is_paint_chunk (e : Event) : bool :=
  strict_eq (Event.type e) "paint_chunk" && truthy (Event.content e).

Definition director_chunk (e : Event) (s : Store) : Store :=
  set_directorOutput (directorOutput s ++ text (Event.content e)) s.

(** [event.type === 'outline']: replaces the outline when there is one. *)
Definition outline (e : Event) (s : Store) : Store :=
  if truthy (Event.content e)
  then set_directorOutput (text (Event.content e)) s
  else s.

Definition paint_chunk (e : Event) (s : Store) : Store :=
  set_paintDirectorOutput (paintDirectorOutput s ++ text (Event.content e)) s.

(** [event.type === 'image' && event.prompt] *)
Definition image_prompt (e : Event) (s : Store) : Store :=
  if strict_eq (Event.type e) "image" && truthy (Event.prompt e)
  then set_paintDirectorOutput (text (Event.prompt e)) s
  else s.

(** [event.type === 'content' && event.content]: the delta goes to the
    local [assistantContent], which is then written to the message. *)
Definition is_content_delta (e : Event) : bool :=
  strict_eq (Event.type e) "content" && truthy (Event.content e).

Definition content_delta (e : Event) (ts : Turn * Store) : Turn * Store :=
  let (t, s) := ts in
  if is_content_delta e then
    let c := assistantContent t ++ text (Event.content e) in
    (mkTurn c (assistantMsgId t),
     set_messages
       (update_id (assistantMsgId t) (Message.with_content c) (messages s)) s)
  else ts.

(** [event.type === 'image' && event.url] *)
Definition image_ready (e : Event) (t : Turn) (s : Store) : Store :=
  if strict_eq (Event.type e) "image" && truthy (Event.url e) then
    set_messages
      (update_id (assistantMsgId t)
         (Message.with_image_url (text (Event.url e))) (messages s))
      (set_sessionImages
         (sessionImages s
            ++ [Image.mk (text (Event.url e)) (assistantMsgId t)])%list s)
  else s.

(** [event.type === 'processed_content' && event.content] *)
Definition post_processed (e : Event) (t : Turn) (s : Store) : Store :=
  if strict_eq (Event.type e) "processed_content" && truthy (Event.content e)
  then
    set_messages
      (update_id (assistantMsgId t)
         (Message.with_content (text (Event.content e))) (messages s)) s
  else s.

(** [event.message_id && event.message_id !== assistantMsgId] *)
Definition is_id_assigned (e : Event) (t : Turn) : bool :=
  truthy (Event.message_id e)
  && negb (String.eqb (text (Event.message_id e)) (assistantMsgId t)).

Definition id_assigned (e : Event) (ts : Turn * Store) : Turn * Store :=
  let (t, s) := ts in
  if is_id_assigned e t then
    let oldId := assistantMsgId t in
    let newId := text (Event.message_id e) in
    (mkTurn (assistantContent t) newId,
     set_messages (update_id oldId (Message.with_id newId) (messages s)) s)
  else ts.

(** [if (event.done)] *)
Definition done_event (e : Event) (t : Turn) (s : Store) : Store :=
  if truthyB (Event.done e) then
    if truthy (Event.processed_content e) then
      set_agentStage None
        (set_isStreaming false
           (set_messages
              (update_id (assistantMsgId t)
                 (Message.with_content (text (Event.processed_content e)))
                 (messages s)) s))
    else set_agentStage None (set_isStreaming false s)
  else s.

(** [if (event.error)] *)
Definition failure (e : Event) (t : Turn) (s : Store) : Store :=
  if truthy (Event.error e) then
    set_agentStage None
      (set_isStreaming false
         (set_messages
            (update_id (assistantMsgId t)
               (Message.with_error (error_text (text (Event.error e))))
               (messages s)) s))
  else s.

(** The branches that run when none of the [continue] branches fired. *)
Definition handle_rest (e : Event) (ts : Turn * Store) : Turn * Store :=
  let (t, s) := ts in
  let s1 := image_prompt e s in
  let (t2, s2) := content_delta e (t, s1) in
  let s3 := image_ready e t2 s2 in
  let s4 := post_processed e t2 s3 in
  let (t5, s5) := id_assigned e (t2, s4) in
  let s6 := done_event e t5 s5 in
  let s7 := failure e t5 s6 in
  (t5, s7).

(** The whole handler; the three early exits are the [continue]s. *)
Definition handle_event (e : Event) (ts : Turn * Store) : Turn * Store :=
  let (t, s) := ts in
  let s0 := stage_change e s in
  if is_director_chunk e then (t, director_chunk e s0)
  else if strict_eq (Event.type e) "outline" then (t, outline e s0)
  else if is_paint_chunk e then (t, paint_chunk e s0)
  else handle_rest e (t, s0).

(** The handler over the records of a stream, in arrival order. *)
Definition handle_events (es : list Event) (ts : Turn * Store)
  : Turn * Store :=
  fold_left (fun acc e => handle_event e acc) es ts.

(** ** regenerateMessage: the handler of one parsed record *)

Record RegenTurn : Set := mkRegenTurn {
  newContent : string;
  newMsgId : string
}.

Definition regen_event (e : Event) (ts : RegenTurn * Store)
  : RegenTurn * Store :=
  let (t, s) := ts in
  let (t1, s1) :=
    if truthy (Event.content e) then
      let c := newContent t ++ text (Event.content e) in
      (mkRegenTurn c (newMsgId t),
       set_messages
         (update_id (newMsgId t) (Message.with_content c) (messages s)) s)
    else (t, s) in
  let t2 :=
    if truthy (Event.message_id e)
    then mkRegenTurn (newContent t1) (text (Event.message_id e))
    else t1 in
  let s2 := if truthyB (Event.done e) then set_isStreaming false s1 else s1 in
  let s3 :=
    if truthy (Event.error e) then
      set_isStreaming false
        (set_messages
           (update_id (newMsgId t2)
              (Message.with_error (error_text (text (Event.error e))))
              (messages s2)) s2)
    else s2 in
  (t2, s3).

Definition regen_events (es : list Event) (ts : RegenTurn * Store)
  : RegenTurn * Store :=
  fold_left (fun acc e => regen_event e acc) es ts.

(** ** The platform under the store

    [TextDecoder] and [JSON.parse] belong to the browser, not to the
    repository: the store is modelled over any decoder and any parser of the
    following shapes, and two instances are given further down for concrete
    runs. *)

(** A [TextDecoder]: fed byte by byte, it gives the text that is complete so
    far and keeps the bytes of an unfinished character in its state;
    [dflush] is what the end of the input adds. *)
Class TextDecoder : Type := {
  dstate : Type;
  dinit : dstate;
  dfeed : dstate -> ascii -> dstate * string;
  dflush : dstate -> string
}.

(** [JSON.parse(data)] followed by the reads of the fields of the record.
    [None] stands for an exception: the text is not JSON, or it is [null],
    whose fields cannot be read.  A JSON text that is no object has no
    field, like [{}]. *)
Class JsonReader : Type := {
  JSON_parse : string -> option Event
}.

Section Streams.
Context {TD : TextDecoder} {JR : JsonReader}.

(** [decoder.decode(value, { stream: true })] from decoder state [d]. *)
Fixpoint decode_stream (d : dstate) (value : string) : dstate * string :=
  match value with
  | EmptyString => (d, EmptyString)
  | String b r =>
      let (d1, o1) := dfeed d b in
      let (d2, o2) := decode_stream d1 r in
      (d2, o1 ++ o2)
  end.

(** [decoder.decode(value)]: the chunk is decoded on its own and the
    decoder is left as new. *)
Definition decode (value : string) : string :=
  let (d, o) := decode_stream dinit value in o ++ dflush d.

(** *** The read loop of sendMessage *)

(** [decoder] and [buffer] of [sendMessage]. *)
Record Reader : Type := mkReader {
  decoder : dstate;
  buffer : string
}.

(** The reader right after [res.body.getReader()]. *)
Definition new_reader : Reader := mkReader dinit EmptyString.

(** The body of [for (const line of lines)]. *)
Definition send_line (line : string) (ts : Turn * Store) : Turn * Store :=
  if startsWith "data: " line then
    let data := trim (slice 6 line) in
    if String.eqb data "[DONE]" || String.eqb data "" then ts
    else match JSON_parse data with
         | Some e => handle_event e ts
         | None => ts
         end
  else ts.

Definition send_lines (lines : list string) (ts : Turn * Store)
  : Turn * Store :=
  fold_left (fun acc l => send_line l acc) lines ts.

(** One turn of [while (true)] with [done] false: the chunk is decoded onto
    the buffer, the last piece of the split stays in the buffer and the
    lines before it are handled. *)
Definition send_chunk (value : string) (st : Reader * (Turn * Store))
  : Reader * (Turn * Store) :=
  let (r, ts) := st in
  let (d, txt) := decode_stream (decoder r) value in
  let lines := split LF (buffer r ++ txt) in
  (mkReader d (last lines EmptyString), send_lines (removelast lines) ts).

Definition send_chunks (values : list string) (st : Reader * (Turn * Store))
  : Reader * (Turn * Store) :=
  fold_left (fun acc v => send_chunk v acc) values st.

(** *** The read loop of regenerateMessage *)

Definition regen_line (line : string) (ts : RegenTurn * Store)
  : RegenTurn * Store :=
  if startsWith "data: " line then
    let data := slice 6 line in
    if String.eqb data "[DONE]" then ts
    else match JSON_parse data with
         | Some e => regen_event e ts
         | None => ts
         end
  else ts.

Definition regen_lines (lines : list string) (ts : RegenTurn * Store)
  : RegenTurn * Store :=
  fold_left (fun acc l => regen_line l acc) lines ts.

(** One turn of its [while (true)]: every piece of the split chunk is
    handled, nothing is kept. *)
Definition regen_chunk (value : string) (ts : RegenTurn * Store)
  : RegenTurn * Store :=
  regen_lines (split LF (decode value)) ts.

Definition regen_chunks (values : list string) (ts : RegenTurn * Store)
  : RegenTurn * Store :=
  fold_left (fun acc v => regen_chunk v acc) values ts.

End Streams.

(** ** The actions, cut at their awaits *)

(** What [Date.now()] and [new Date().toISOString()] give at one moment,
    the first as its decimal digits. *)
Record Clock : Set := mkClock { now : string; iso : string }.

(** What the server gives to a request: [fetch] fails or the status is not
    ok (an exception with a message), or a body arrives as chunks, and the
    read after the last of them ends the stream or throws. *)
Inductive Response : Set :=
| Refused (message : string)
| Body (values : list string) (broken : option string).

(** [sendMessage] from [const session = get().activeSession] to the
    [fetch]: the user message and the empty assistant message are added.
    [c1] and [c2] are the clock at the two messages. *)
Definition send_begin (content : string) (c1 c2 : Clock) (s : Store)
  : Turn * Store :=
  let userMsg :=
    Message.mk ("temp-" ++ now c1) user content (iso c1) None false in
  let s1 :=
    set_isStreaming true (set_messages (messages s ++ [userMsg])%list s) in
  let t := mkTurn "" ("assistant-" ++ now c2) in
  (t,
   set_messages
     (messages s1
        ++ [Message.mk (assistantMsgId t) assistant "" (iso c2) None false])%list
     s1).

(** The [catch] of [sendMessage]. *)
Definition send_catch (message : string) (ts : Turn * Store) : Turn * Store :=
  let (t, s) := ts in
  (t,
   set_agentStage None
     (set_isStreaming false
        (set_messages
           (update_id (assistantMsgId t)
              (Message.with_error (error_text message)) (messages s)) s))).

(** The last statement of [sendMessage]. *)
Definition send_end (ts : Turn * Store) : Turn * Store :=
  let (t, s) := ts in (t, set_agentStage None (set_isStreaming false s)).

(** [stopStreaming]. *)
Definition stopStreaming (s : Store) : Store :=
  set_agentStage None (set_isStreaming false s).

(** [sendMessage] with an active session, when nothing else runs in
    between. *)
Definition sendMessage {TD : TextDecoder} {JR : JsonReader}
  (content : string) (c1 c2 : Clock) (resp : Response) (s : Store) : Store :=
  let ts := send_begin content c1 c2 s in
  match resp with
  | Refused message => snd (send_end (send_catch message ts))
  | Body values broken =>
      let ts1 := snd (send_chunks values (new_reader, ts)) in
      match broken with
      | Some message => snd (send_end (send_catch message ts1))
      | None => snd (send_end ts1)
      end
  end.

(** [messages.findIndex(p)]: [None] for -1. *)
Fixpoint findIndex {A : Type} (p : A -> bool) (l : list A) : option nat :=
  match l with
  | [] => None
  | x :: r => if p x then Some 0
              else match findIndex p r with
                   | Some i => Some (S i)
                   | None => None
                   end
  end.

(** [l.map((m, i) => f(m, i))], the index counted from [i0]. *)
Fixpoint map_index {A B : Type} (f : A -> nat -> B) (i0 : nat) (l : list A)
  : list B :=
  match l with
  | [] => []
  | x :: r => f x i0 :: map_index f (S i0) r
  end.

(** How [regenerateMessage] leaves its first synchronous piece: it has
    returned, or it awaits the [fetch] of [url], having found the message at
    [msgIndex]. *)
Inductive Begun : Set :=
| Returned
| Fetching (url : string) (msgIndex : nat).

(** [regenerateMessage] up to its [fetch]; [messageId] is [None] for null
    and undefined. *)
Definition regen_begin (messageId : option string) (s : Store)
  : Begun * Store :=
  match activeSession s with
  | None => (Returned, s)
  | Some session =>
      if truthy messageId then
        match findIndex
                (fun m => String.eqb (Message.id m) (text messageId))
                (messages s) with
        | None => (Returned, s)
        | Some msgIndex =>
            (Fetching
               ("/api/chat/sessions/" ++ Session.id session ++ "/regenerate/"
                  ++ text messageId) msgIndex,
             set_isStreaming true s)
        end
      else (Returned, s)
  end.

(** After an ok response: the message at [msgIndex] is emptied and renamed,
    the later ones are cut off. *)
Definition regen_open (c : Clock) (msgIndex : nat) (s : Store)
  : RegenTurn * Store :=
  let t := mkRegenTurn "" ("regen-" ++ now c) in
  (t,
   set_messages
     (firstn (msgIndex + 1)
        (map_index
           (fun m i => if Nat.eqb i msgIndex
                       then Message.reset (newMsgId t) m else m)
           0 (messages s))) s).

(** The [catch] of [regenerateMessage]: the error goes to the message at
    [msgIndex]. *)
Definition regen_catch (message : string) (msgIndex : nat) (s : Store)
  : Store :=
  set_isStreaming false
    (set_messages
       (map_index
          (fun m i => if Nat.eqb i msgIndex
                      then Message.with_error (error_text message) m else m)
          0 (messages s)) s).

(** [regenerateMessage] when nothing else runs in between. *)
Definition regenerateMessage {TD : TextDecoder} {JR : JsonReader}
  (messageId : option string) (c : Clock) (resp : Response) (s : Store)
  : Store :=
  match regen_begin messageId s with
  | (Returned, s0) => s0
  | (Fetching _ msgIndex, s0) =>
      match resp with
      | Refused message =>
          set_isStreaming false (regen_catch message msgIndex s0)
      | Body values broken =>
          let s1 := snd (regen_chunks values (regen_open c msgIndex s0)) in
          match broken with
          | Some message =>
              set_isStreaming false (regen_catch message msgIndex s1)
          | None => set_isStreaming false s1
          end
      end
  end.

(** ** Several actions on one store

    JavaScript runs one piece of an action at a time and switches at the
    awaits.  A world is the store together with the local variables of the
    [sendMessage] calls whose read loop is still running; a step is one
    piece of one action. *)

Section Interleaving.
Context {TD : TextDecoder} {JR : JsonReader}.

Record World : Type := mkWorld {
  turns : list (option (Reader * Turn));
  store : Store
}.

Inductive Step : Set :=
| Start (content : string) (c1 c2 : Clock)
| Deliver (k : nat) (value : string)
| Finish (k : nat)
| Stop.

(** [l[k] = x] for [k] in range. *)
Fixpoint set_nth {A : Type} (k : nat) (x : A) (l : list A) : list A :=
  match l, k with
  | [], _ => []
  | _ :: r, 0 => x :: r
  | y :: r, S k' => y :: set_nth k' x r
  end.

(** - [Start]: a call of [sendMessage] runs to its [fetch], and its loop
      then waits for the first chunk;
    - [Deliver k v]: [reader.read()] of the [k]-th call gives the chunk [v]
      and the loop runs to its next read;
    - [Finish k]: [reader.read()] of the [k]-th call gives [done];
    - [Stop]: the user presses stop. *)
Definition step (w : World) (a : Step) : World :=
  match a with
  | Start content c1 c2 =>
      let (t, s) := send_begin content c1 c2 (store w) in
      mkWorld (turns w ++ [Some (new_reader, t)])%list s
  | Deliver k value =>
      match nth_error (turns w) k with
      | Some (Some (r, t)) =>
          let '(r1, (t1, s1)) := send_chunk value (r, (t, store w)) in
          mkWorld (set_nth k (Some (r1, t1)) (turns w)) s1
      | _ => w
      end
  | Finish k =>
      match nth_error (turns w) k with
      | Some (Some (r, t)) =>
          mkWorld (set_nth k None (turns w)) (snd (send_end (t, store w)))
      | _ => w
      end
  | Stop => mkWorld (turns w) (stopStreaming (store w))
  end.

Definition run (w : World) (trace : list Step) : World :=
  fold_left step trace w.

End Interleaving.

(** ** Instances of the platform for concrete runs *)

(** *** The UTF-8 decoder of the Encoding standard

    In replacement mode and with the byte order mark stripped, as
    [new TextDecoder()] is.  The text it gives is again held in UTF-8: a
    well-formed character is passed on when its last byte arrives, an
    ill-formed sequence becomes U+FFFD. *)
Record Utf8 : Set := mkUtf8 {
  needed : nat;
  lower : nat;
  upper : nat;
  pending : string;
  bomSeen : bool
}.

Definition bytes (l : list nat) : string :=
  string_of_list_ascii (map ascii_of_nat l).

Definition U_FFFD : string := bytes [239; 191; 189].
Definition U_FEFF : string := bytes [239; 187; 191].

(** A character leaves the decoder; the first one is dropped when it is the
    byte order mark. *)
Definition utf8_emit (ch : string) (st : Utf8) : Utf8 * string :=
  (mkUtf8 0 128 191 EmptyString true,
   if bomSeen st then ch
   else if String.eqb ch U_FEFF then EmptyString else ch).

(** A byte that is read with no character pending. *)
Definition utf8_lead (b : ascii) (st : Utf8) : Utf8 * string :=
  let n := nat_of_ascii b in
  if (n <=? 127)%nat then utf8_emit (String b EmptyString) st
  else if ((194 <=? n) && (n <=? 223))%nat then
    (mkUtf8 1 128 191 (String b EmptyString) (bomSeen st), EmptyString)
  else if ((224 <=? n) && (n <=? 239))%nat then
    (mkUtf8 2 (if (n =? 224)%nat then 160 else 128)
       (if (n =? 237)%nat then 159 else 191)
       (String b EmptyString) (bomSeen st), EmptyString)
  else if ((240 <=? n) && (n <=? 244))%nat then
    (mkUtf8 3 (if (n =? 240)%nat then 144 else 128)
       (if (n =? 244)%nat then 143 else 191)
       (String b EmptyString) (bomSeen st), EmptyString)
  else utf8_emit U_FFFD st.

Definition utf8_feed (st : Utf8) (b : ascii) : Utf8 * string :=
  let n := nat_of_ascii b in
  match needed st with
  | 0 => utf8_lead b st
  | S k =>
      if ((lower st <=? n) && (n <=? upper st))%nat then
        let p := pending st ++ String b EmptyString in
        match k with
        | 0 => utf8_emit p st
        | S _ => (mkUtf8 k 128 191 p (bomSeen st), EmptyString)
        end
      else
        let (st1, o1) := utf8_emit U_FFFD st in
        let (st2, o2) := utf8_lead b st1 in
        (st2, o1 ++ o2)
  end.

Definition utf8_flush (st : Utf8) : string :=
  match needed st with
  | 0 => EmptyString
  | S _ => U_FFFD
  end.

#[export] Instance utf8 : TextDecoder := {
  dstate := Utf8;
  dinit := mkUtf8 0 128 191 EmptyString false;
  dfeed := utf8_feed;
  dflush := utf8_flush
}.

(** *** A reader of the records of the wire contract

    It reads one JSON object whose members are strings, [true], [false] or
    [null], with the fields at their types, and fails on every other text;
    on the objects it reads it gives what [JSON.parse] gives.  Escapes with
    hexadecimal digits, numbers and nested values are not read: the runs
    below have none. *)
Fixpoint skip_ws (s : string) : string :=
  match s with
  | String a r =>
      let n := nat_of_ascii a in
      if ((n =? 32) || (n =? 9) || (n =? 10) || (n =? 13))%nat
      then skip_ws r else s
  | EmptyString => s
  end.

(** The character an escape stands for. *)
Definition unescape (a : ascii) : option ascii :=
  let n := nat_of_ascii a in
  if (n =? 34)%nat then Some a
  else if (n =? 92)%nat then Some a
  else if (n =? 47)%nat then Some a
  else if (n =? 98)%nat then Some (ascii_of_nat 8)
  else if (n =? 102)%nat then Some (ascii_of_nat 12)
  else if (n =? 110)%nat then Some (ascii_of_nat 10)
  else if (n =? 114)%nat then Some (ascii_of_nat 13)
  else if (n =? 116)%nat then Some (ascii_of_nat 9)
  else None.

(** The text of a string literal from behind its opening quote, and what
    follows its closing quote. *)
Fixpoint read_string (s : string) : option (string * string) :=
  match s with
  | EmptyString => None
  | String a r =>
      let n := nat_of_ascii a in
      if (n =? 34)%nat then Some (EmptyString, r)
      else if (n =? 92)%nat then
        match r with
        | String b r2 =>
            match unescape b, read_string r2 with
            | Some c, Some (v, rest) => Some (String c v, rest)
            | _, _ => None
            end
        | EmptyString => None
        end
      else if (n <? 32)%nat then None
      else match read_string r with
           | Some (v, rest) => Some (String a v, rest)
           | None => None
           end
  end.

Inductive Value : Set :=
| VString (s : string)
| VBool (b : bool)
| VNull.

Definition read_value (s : string) : option (Value * string) :=
  match s with
  | String a r =>
      if Ascii.eqb a dquote then
        match read_string r with
        | Some (v, rest) => Some (VString v, rest)
        | None => None
        end
      else if prefix "true" s then Some (VBool true, slice 4 s)
      else if prefix "false" s then Some (VBool false, slice 5 s)
      else if prefix "null" s then Some (VNull, slice 4 s)
      else None
  | EmptyString => None
  end.

Definition as_string (v : Value) : option (option string) :=
  match v with
  | VString s => Some (Some s)
  | VNull => Some None
  | VBool _ => None
  end.

Definition as_bool (v : Value) : option (option bool) :=
  match v with
  | VBool b => Some (Some b)
  | VNull => Some None
  | VString _ => None
  end.

(** The record with member [key] set to [v]; a field of the contract must
    have its type, other members are not kept. *)
Definition set_field (key : string) (v : Value) (e : Event) : option Event :=
  let str f := option_map f (as_string v) in
  let '(Event.mk st ty co pr ur mi dn pc er) := e in
  if String.eqb key "stage" then str (fun x => Event.mk x ty co pr ur mi dn pc er)
  else if String.eqb key "type" then str (fun x => Event.mk st x co pr ur mi dn pc er)
  else if String.eqb key "content" then str (fun x => Event.mk st ty x pr ur mi dn pc er)
  else if String.eqb key "prompt" then str (fun x => Event.mk st ty co x ur mi dn pc er)
  else if String.eqb key "url" then str (fun x => Event.mk st ty co pr x mi dn pc er)
  else if String.eqb key "message_id" then str (fun x => Event.mk st ty co pr ur x dn pc er)
  else if String.eqb key "done" then
    option_map (fun x => Event.mk st ty co pr ur mi x pc er) (as_bool v)
  else if String.eqb key "processed_content" then
    str (fun x => Event.mk st ty co pr ur mi dn x er)
  else if String.eqb key "error" then str (fun x => Event.mk st ty co pr ur mi dn pc x)
  else Some e.

(** The members of an object from its first member on. *)
Fixpoint read_members (fuel : nat) (s : string) (e : Event) : option Event :=
  match fuel with
  | 0 => None
  | S fuel' =>
      match skip_ws s with
      | String q r =>
          if Ascii.eqb q dquote then
            match read_string r with
            | Some (key, r1) =>
                match skip_ws r1 with
                | String c r2 =>
                    if Ascii.eqb c ":"%char then
                      match read_value (skip_ws r2) with
                      | Some (v, r3) =>
                          match set_field key v e, skip_ws r3 with
                          | Some e', String d r4 =>
                              if Ascii.eqb d ","%char
                              then read_members fuel' r4 e'
                              else if Ascii.eqb d "}"%char
                              then match skip_ws r4 with
                                   | EmptyString => Some e'
                                   | _ => None
                                   end
                              else None
                          | _, _ => None
                          end
                      | None => None
                      end
                    else None
                | EmptyString => None
                end
            | None => None
            end
          else None
      | EmptyString => None
      end
  end.

Definition read_record (s : string) : option Event :=
  match skip_ws s with
  | String a r =>
      if Ascii.eqb a "{"%char then
        match skip_ws r with
        | String b r' =>
            if Ascii.eqb b "}"%char then
              match skip_ws r' with
              | EmptyString => Some Event.empty
              | _ => None
              end
            else read_members (String.length s) r Event.empty
        | EmptyString => None
        end
      else None
  | EmptyString => None
  end.

#[export] Instance wire : JsonReader := { JSON_parse := read_record }.

(** ** Other actions on the store

    The actions below first await a [fetch]; what is modelled is the [set]
    that follows it, with what the server returned as an argument. *)

(** [deleteSession]: the session leaves the list; when it is the active one,
    the active session and the messages are cleared. *)
Definition deleteSession (sessionId : string) (s : Store) : Store :=
  let active :=
    match activeSession s with
    | Some a => String.eqb (Session.id a) sessionId
    | None => false
    end in
  mkStore
    (filter (fun x => negb (String.eqb (Session.id x) sessionId)) (sessions s))
    (if active then None else activeSession s)
    (if active then [] else messages s)
    (isStreaming s) (agentStage s) (directorOutput s) (paintDirectorOutput s)
    (showDirectorPopup s) (showPaintDirectorPopup s) (sessionImages s).

(** [session.messages.filter(m => m.image_url).map(...)] of [loadSession]. *)
Definition session_images (ms : list Message) : list Image :=
  map (fun m => Image.mk (text (Message.image_url m)) (Message.id m))
    (filter (fun m => truthy (Message.image_url m)) ms).

(** [loadSession] with the session the server returned; [msgs] is its
    [messages] field, [None] when it has none: [session.messages.filter]
    then throws and nothing is set. *)
Definition loadSession (session : Session) (msgs : option (list Message))
  (s : Store) : Store :=
  match msgs with
  | None => s
  | Some ms =>
      mkStore (sessions s) (Some session) ms (isStreaming s) (agentStage s)
        (directorOutput s) (paintDirectorOutput s) (showDirectorPopup s)
        (showPaintDirectorPopup s) (session_images ms)
  end.

(** An LLM configuration, with the fields of its form. *)
Module LLMConfig.
Record t : Set := mk {
  id : string;
  name : string;
  base_url : string;
  api_key : string;
  default_model : string;
  is_active : bool
}.

(** [{ ...c, is_active: b }] *)
Definition with_is_active (b : bool) (c : t) : t :=
  mk (id c) (name c) (base_url c) (api_key c) (default_model c) b.
End LLMConfig.

Abbreviation LLMConfig := LLMConfig.t.

(** The two fields of the store that the LLM actions set. *)
Record LLMState : Set := mkLLMState {
  llmConfigs : list LLMConfig;
  activeLLMConfig : option LLMConfig
}.

(** [state.activeLLMConfig?.id === configId] *)
Definition active_is (configId : string) (st : LLMState) : bool :=
  match activeLLMConfig st with
  | Some c => String.eqb (LLMConfig.id c) configId
  | None => false
  end.

Definition setActiveLLMConfig (configId : string) (st : LLMState) : LLMState :=
  mkLLMState
    (map (fun c =>
            LLMConfig.with_is_active (String.eqb (LLMConfig.id c) configId) c)
       (llmConfigs st))
    (find (fun c => String.eqb (LLMConfig.id c) configId) (llmConfigs st)).

Definition deleteLLMConfig (configId : string) (st : LLMState) : LLMState :=
  mkLLMState
    (filter (fun c => negb (String.eqb (LLMConfig.id c) configId))
       (llmConfigs st))
    (if active_is configId st then None else activeLLMConfig st).

(** A world book as the store sees it: only its id is read. *)
Module Worldbook.
Record t : Set := mk { id : string; name : string }.
End Worldbook.

Abbreviation Worldbook := Worldbook.t.

(** [toggleActiveWorldbook] on the field [activeWorldbooks]. *)
Definition toggleActiveWorldbook (worldbook : Worldbook)
  (activeWorldbooks : list Worldbook) : list Worldbook :=
  match find (fun wb => String.eqb (Worldbook.id wb) (Worldbook.id worldbook))
          activeWorldbooks with
  | Some _ =>
      filter
        (fun wb => negb (String.eqb (Worldbook.id wb) (Worldbook.id worldbook)))
        activeWorldbooks
  | None => (activeWorldbooks ++ [worldbook])%list
  end.

(** * Vocabulary of the statements *)

(** ** The tracked message

    [sendMessage] finds its message by the id in [assistantMsgId]; the
    message list holds a message of that id from [send_begin] on. *)

Definition tracked (ts : Turn * Store) : Prop :=
  In (assistantMsgId (fst ts)) (map Message.id (messages (snd ts))).

(** The store and the locals in front of the [done] branch. *)
Definition before_done (e : Event) (ts : Turn * Store) : Turn * Store :=
  let s1 := image_prompt e (snd ts) in
  let ts2 := content_delta e (fst ts, s1) in
  let s3 := image_ready e (fst ts2) (snd ts2) in
  let s4 := post_processed e (fst ts2) s3 in
  id_assigned e (fst ts2, s4).

(** ** Records by kind

    The kinds of the specification, as the records that carry exactly the
    fields of one kind. *)

Definition ContentDelta (d : string) : Event :=
  Event.mk None (Some "content") (Some d) None None None None None None.

Definition PostProcessed (p : string) : Event :=
  Event.mk None (Some "processed_content") (Some p) None None None None None
    None.

Definition ImageReady (u : string) : Event :=
  Event.mk None (Some "image") None None (Some u) None None None None.

Definition IdAssigned (i : string) : Event :=
  Event.mk None None None None None (Some i) None None None.

Definition Done (processed : option string) : Event :=
  Event.mk None None None None None None (Some true) processed None.

Definition Failure (err : string) : Event :=
  Event.mk None None None None None None None None (Some err).

(** A record that none of the three [continue] branches takes. *)
Definition falls_through (e : Event) : bool :=
  negb (is_director_chunk e)
  && negb (strict_eq (Event.type e) "outline")
  && negb (is_paint_chunk e).

(** The text a record adds to [assistantContent]. *)
Definition delta_of (e : Event) : string :=
  if is_content_delta e then text (Event.content e) else "".

(** ** Texts and stores *)

(** A text without the separator is its own split. *)
Definition one_line (c : ascii) (s : string) : Prop := split c s = [s].

(** The line [data: json] closed by a line feed, the JSON written with
    apostrophes. *)
Definition frame (json : string) : string := "data: " ++ js json ++ nl.

(** Two stores agree when they differ at most in [isStreaming] and
    [agentStage], the two fields that [stopStreaming] sets. *)
Definition agree (s s' : Store) : Prop := stopStreaming s = stopStreaming s'.

(** A sample store with an active session, and a sample clock. *)
Definition sample_store : Store :=
  mkStore [Session.mk "s1"] (Some (Session.mk "s1")) [] false None "" ""
    false false [].

Definition sample_clock : Clock := mkClock "1700000000000" "2023-11-14T22:13:20.000Z".

(** A store with two messages, for runs of [regenerateMessage]. *)
Definition chat_store : Store :=
  set_messages
    [Message.mk "u1" user "Tell me a story" "2023-11-14T22:13:00.000Z" None
       false;
     Message.mk "a1" assistant "Once upon a time" "2023-11-14T22:13:05.000Z"
       None false]
    sample_store.

(** ** The claims that fail, as stated *)

(** The claim at deltas [ds] and error [err]: the message of the turn is
    flagged and still shows the deltas. *)
Definition failure_keeps_deltas (ds : list string) (err : string) : Prop :=
  let ts := handle_events (map ContentDelta ds ++ [Failure err])
              (send_begin "Tell me a story" sample_clock sample_clock
                 sample_store) in
  forall m, In m (messages (snd ts)) ->
            Message.id m = assistantMsgId (fst ts) ->
            Message.isError m = true
            /\ Message.content m = fold_right String.append "" ds.

(** The claim at record [e]: handling it a second time adds nothing to
    [sessionImages]. *)
Definition image_append_idempotent (e : Event) (ts : Turn * Store) : Prop :=
  sessionImages (snd (handle_events [e; e] ts))
  = sessionImages (snd (handle_events [e] ts)).

(** The claim for [stopStreaming]: after it, no chunk of a turn started
    before changes the store. *)
Definition stop_is_final : Prop :=
  forall (trace : list Step) (k : nat) (value : string),
    let w := run (mkWorld [] sample_store) (trace ++ [Stop]) in
    store (step w (Deliver k value)) = store w.

(** The claim for a second turn: once it has started, no chunk of a turn
    started before changes the store. *)
Definition next_turn_is_final : Prop :=
  forall (trace : list Step) (content : string) (c1 c2 : Clock) (k : nat)
         (value : string),
    let w0 := run (mkWorld [] sample_store) trace in
    let w := step w0 (Start content c1 c2) in
    k < List.length (turns w0) ->
    store (step w (Deliver k value)) = store w.

(** ** Further vocabulary *)

(** What every rewrite of a message keeps: role and time stamp, an error
    flag that is set, an image that is attached. *)
Definition keeps (m m' : Message) : Prop :=
  Message.role m' = Message.role m
  /\ Message.timestamp m' = Message.timestamp m
  /\ (Message.isError m = true -> Message.isError m' = true)
  /\ (Message.image_url m <> None -> Message.image_url m' <> None).

(** The records of the stage side channels. *)
Definition StageStart (st : string) : Event :=
  Event.mk (Some st) None None None None None None None None.

Definition DirectorChunk (d : string) : Event :=
  Event.mk None (Some "director_chunk") (Some d) None None None None None None.

Definition Outline (o : string) : Event :=
  Event.mk None (Some "outline") (Some o) None None None None None None.

Definition PaintChunk (d : string) : Event :=
  Event.mk None (Some "paint_chunk") (Some d) None None None None None None.

Definition ImagePrompt (p : string) : Event :=
  Event.mk None (Some "image") None (Some p) None None None None None.

(** The message of the exception that ends a response, if any. *)
Definition thrown (resp : Response) : option string :=
  match resp with
  | Refused message => Some message
  | Body _ broken => broken
  end.

(** The text a record adds to [newContent] in [regenerateMessage], where the
    type of the record is not looked at. *)
Definition regen_delta_of (e : Event) : string :=
  if truthy (Event.content e) then text (Event.content e) else "".

(** Both stores of an [agree] hypothesis are opened and made equal but for
    the two fields. *)
Ltac agree_start :=
  match goal with
  | s : Store, s' : Store |- _ =>
      destruct s, s';
      unfold agree, stopStreaming, set_agentStage, set_isStreaming in *;
      cbn in *;
      match goal with
      | H : mkStore _ _ _ _ _ _ _ _ _ _ = _ |- _ =>
          injection H as -> -> -> -> -> -> -> ->
      end
  end.

(** * Properties *)

(** ** The message list under [map] *)

Lemma update_id_ids (i : string) (f : Message -> Message)
  (ms : list Message) :
  (forall m, Message.id (f m) = Message.id m) ->
  map Message.id (update_id i f ms) = map Message.id ms.
Proof.
  intros Hf. unfold update_id. rewrite map_map. apply map_ext.
  intros m. destruct (String.eqb (Message.id m) i); auto.
Qed.

(** A message of the new list that carries [i] is an image of [f], as soon
    as [f] keeps ids. *)
Lemma update_id_hit (i : string) (f : Message -> Message)
  (ms : list Message) (m : Message) :
  (forall x, Message.id (f x) = Message.id x) ->
  In m (update_id i f ms) -> Message.id m = i ->
  exists m0, In m0 ms /\ Message.id m0 = i /\ m = f m0.
Proof.
  intros Hf Hin Hid. unfold update_id in Hin. apply in_map_iff in Hin.
  destruct Hin as [m0 [Heq Hin0]]. exists m0.
  destruct (String.eqb (Message.id m0) i) eqn:E.
  - apply String.eqb_eq in E. auto.
  - apply String.eqb_neq in E. subst m. contradiction.
Qed.

(** ** The tracked message stays tracked *)

Lemma stage_change_messages e s : messages (stage_change e s) = messages s.
Proof.
  unfold stage_change. destruct (truthy (Event.stage e)); auto.
  destruct (strict_eq (Event.stage e) "director");
    destruct (strict_eq (Event.stage e) "paint_director"); reflexivity.
Qed.

Lemma image_prompt_messages e s : messages (image_prompt e s) = messages s.
Proof.
  unfold image_prompt.
  destruct (strict_eq (Event.type e) "image" && truthy (Event.prompt e));
    reflexivity.
Qed.

Lemma content_delta_id e ts :
  assistantMsgId (fst (content_delta e ts)) = assistantMsgId (fst ts).
Proof.
  destruct ts as [t s]. unfold content_delta.
  destruct (is_content_delta e); reflexivity.
Qed.

Lemma content_delta_ids e ts :
  map Message.id (messages (snd (content_delta e ts)))
  = map Message.id (messages (snd ts)).
Proof.
  destruct ts as [t s]. unfold content_delta.
  destruct (is_content_delta e); simpl; auto.
  now apply update_id_ids.
Qed.

Lemma image_ready_ids e t s :
  map Message.id (messages (image_ready e t s)) = map Message.id (messages s).
Proof.
  unfold image_ready.
  destruct (strict_eq (Event.type e) "image" && truthy (Event.url e));
    simpl; auto.
  now apply update_id_ids.
Qed.

Lemma post_processed_ids e t s :
  map Message.id (messages (post_processed e t s))
  = map Message.id (messages s).
Proof.
  unfold post_processed.
  destruct (strict_eq (Event.type e) "processed_content"
            && truthy (Event.content e)); simpl; auto.
  now apply update_id_ids.
Qed.

Lemma done_event_ids e t s :
  map Message.id (messages (done_event e t s)) = map Message.id (messages s).
Proof.
  unfold done_event.
  destruct (truthyB (Event.done e)); auto.
  destruct (truthy (Event.processed_content e)); simpl; auto.
  now apply update_id_ids.
Qed.

Lemma failure_ids e t s :
  map Message.id (messages (failure e t s)) = map Message.id (messages s).
Proof.
  unfold failure.
  destruct (truthy (Event.error e)); simpl; auto.
  now apply update_id_ids.
Qed.

(** The rename keeps the tracked message tracked. *)
Lemma id_assigned_tracked e ts : tracked ts -> tracked (id_assigned e ts).
Proof.
  destruct ts as [t s]. unfold tracked, id_assigned. simpl.
  destruct (is_id_assigned e t); simpl; auto.
  intros H. apply in_map_iff in H. destruct H as [m [Hm Hin]].
  apply in_map_iff.
  exists (Message.with_id (text (Event.message_id e)) m). split; auto.
  unfold update_id. apply in_map_iff. exists m. split; auto.
  apply String.eqb_eq in Hm. now rewrite Hm.
Qed.

Lemma handle_rest_eq e ts :
  handle_rest e ts =
  (fst (before_done e ts),
   failure e (fst (before_done e ts))
     (done_event e (fst (before_done e ts)) (snd (before_done e ts)))).
Proof.
  destruct ts as [t s]. unfold handle_rest, before_done. cbn [fst snd].
  destruct (content_delta e (t, image_prompt e s)) as [t2 s2]. cbn [fst snd].
  match goal with |- context [id_assigned e ?x] => destruct (id_assigned e x) end.
  reflexivity.
Qed.

Lemma before_done_tracked e ts : tracked ts -> tracked (before_done e ts).
Proof.
  intros H. unfold before_done. apply id_assigned_tracked.
  unfold tracked in *. cbn [fst snd].
  rewrite post_processed_ids, image_ready_ids, content_delta_ids,
    content_delta_id. cbn [fst snd].
  now rewrite image_prompt_messages.
Qed.

Lemma handle_rest_tracked e ts : tracked ts -> tracked (handle_rest e ts).
Proof.
  intros H. rewrite handle_rest_eq. apply (before_done_tracked e) in H.
  unfold tracked in *. cbn [fst snd]. now rewrite failure_ids, done_event_ids.
Qed.

Lemma handle_event_tracked e ts : tracked ts -> tracked (handle_event e ts).
Proof.
  destruct ts as [t s]. intros H. unfold handle_event.
  assert (H0 : tracked (t, stage_change e s)).
  { unfold tracked in *. simpl in *. now rewrite stage_change_messages. }
  destruct (is_director_chunk e); [exact H0|].
  destruct (strict_eq (Event.type e) "outline").
  { unfold tracked, outline in *. simpl in *.
    destruct (truthy (Event.content e)); exact H0. }
  destruct (is_paint_chunk e); [exact H0|].
  now apply handle_rest_tracked.
Qed.

Lemma handle_events_tracked es ts : tracked ts -> tracked (handle_events es ts).
Proof.
  revert ts. induction es as [|e es IH]; intros ts H; simpl; auto.
  apply IH. now apply handle_event_tracked.
Qed.

Lemma send_begin_tracked content c1 c2 s :
  tracked (send_begin content c1 c2 s).
Proof.
  unfold tracked, send_begin. simpl. rewrite map_app. simpl.
  apply in_or_app. right. now left.
Qed.

Lemma handle_events_app es1 es2 ts :
  handle_events (es1 ++ es2)%list ts = handle_events es2 (handle_events es1 ts).
Proof. unfold handle_events. apply fold_left_app. Qed.

(** ** Records that reach the later branches *)

Lemma handle_event_falls e ts :
  falls_through e = true ->
  handle_event e ts = handle_rest e (fst ts, stage_change e (snd ts)).
Proof.
  destruct ts as [t s]. unfold falls_through, handle_event. intros H.
  apply andb_prop in H. destruct H as [H H3].
  apply andb_prop in H. destruct H as [H1 H2].
  apply negb_true_iff in H1, H2, H3. now rewrite H1, H2, H3.
Qed.

Lemma append_nil_r (s : string) : s ++ "" = s.
Proof. induction s; simpl; congruence. Qed.

Lemma append_assoc (a b c : string) : (a ++ b) ++ c = a ++ (b ++ c).
Proof. induction a; simpl; congruence. Qed.

(** ** Completion with a processed text (C6) *)

Lemma done_replaces_tracked (e : Event) (ts : Turn * Store) :
  tracked ts ->
  falls_through e = true ->
  truthyB (Event.done e) = true ->
  truthy (Event.processed_content e) = true ->
  truthy (Event.error e) = false ->
  tracked (handle_event e ts) /\
  forall m, In m (messages (snd (handle_event e ts))) ->
            Message.id m = assistantMsgId (fst (handle_event e ts)) ->
            Message.content m = text (Event.processed_content e).
Proof.
  intros Htr Hft Hd Hp He. split; [now apply handle_event_tracked|].
  rewrite (handle_event_falls _ _ Hft), handle_rest_eq. cbn [fst snd].
  unfold failure, done_event. rewrite He, Hd, Hp. cbn [messages set_agentStage set_isStreaming set_messages].
  intros m Hin Hid.
  apply update_id_hit in Hin; auto.
  destruct Hin as [m0 [_ [_ Hm]]]. now subst m.
Qed.

(** C6.  In [sendMessage], whatever records came before (content deltas in
    particular), a record with [done] that carries a processed text, and is
    neither taken by a [continue] branch nor carries an error, leaves the
    message of the turn with exactly the processed text as its content. *)
Theorem done_processed_content_overrides
  (content : string) (c1 c2 : Clock) (s : Store)
  (es : list Event) (e : Event) :
  falls_through e = true ->
  truthyB (Event.done e) = true ->
  truthy (Event.processed_content e) = true ->
  truthy (Event.error e) = false ->
  let ts := handle_events (es ++ [e]) (send_begin content c1 c2 s) in
  (exists m, In m (messages (snd ts))
             /\ Message.id m = assistantMsgId (fst ts)) /\
  (forall m, In m (messages (snd ts)) ->
             Message.id m = assistantMsgId (fst ts) ->
             Message.content m = text (Event.processed_content e)).
Proof.
  intros Hft Hd Hp He ts. subst ts. rewrite handle_events_app.
  set (ts0 := handle_events es (send_begin content c1 c2 s)).
  assert (H0 : tracked ts0)
    by (apply handle_events_tracked, send_begin_tracked).
  change (handle_events [e] ts0) with (handle_event e ts0).
  destruct (done_replaces_tracked e ts0 H0 Hft Hd Hp He) as [Htr Hc].
  split; auto.
  unfold tracked in Htr. apply in_map_iff in Htr.
  destruct Htr as [m [Hid Hin]]. now exists m.
Qed.

(** C6 on the run of the specification: deltas [Hello] and [ world], then
    completion with [HELLO WORLD]. *)
Lemma done_processed_content_overrides_witness :
  let ts := handle_events
              ([ContentDelta "Hello"; ContentDelta " world"]
                 ++ [Done (Some "HELLO WORLD")])
              (send_begin "Hi" sample_clock sample_clock sample_store) in
  (exists m, In m (messages (snd ts))
             /\ Message.id m = assistantMsgId (fst ts)) /\
  (forall m, In m (messages (snd ts)) ->
             Message.id m = assistantMsgId (fst ts) ->
             Message.content m = "HELLO WORLD").
Proof.
  apply (done_processed_content_overrides "Hi" sample_clock sample_clock
           sample_store [ContentDelta "Hello"; ContentDelta " world"]
           (Done (Some "HELLO WORLD"))); reflexivity.
Defined.

(** A record with [done] whose [processed_content] is the empty string
    carries no processed text for the test [if (event.processed_content)]:
    the content stays as the deltas left it. *)
Example done_empty_processed_content :
  map Message.content
    (messages
       (snd (handle_events [ContentDelta "Hello"; Done (Some "")]
               (send_begin "Hi" sample_clock sample_clock sample_store))))
  = ["Hi"; "Hello"].
Proof. reflexivity. Qed.

(** ** A failure after deltas (C4) *)

(** C4 as stated fails: after the delta [Once upon] and the failure [boom]
    the message shows the error text and nothing of the delta. *)
Lemma failure_discards_deltas : ~ failure_keeps_deltas ["Once upon"] "boom".
Proof.
  unfold failure_keeps_deltas. intros H.
  specialize (H (Message.mk "assistant-1700000000000" assistant
                   (error_text "boom") "2023-11-14T22:13:20.000Z" None true)).
  simpl in H. destruct H as [_ H]; auto. discriminate H.
Qed.

(** C4, amended.  In [sendMessage], whatever records came before (content
    deltas in particular), a record with an error that no [continue] branch
    takes leaves the message of the turn flagged with [isError] and with the
    error text, behind its warning prefix, as its whole content. *)
Theorem failure_replaces_content
  (content : string) (c1 c2 : Clock) (s : Store)
  (es : list Event) (e : Event) :
  falls_through e = true ->
  truthy (Event.error e) = true ->
  let ts := handle_events (es ++ [e]) (send_begin content c1 c2 s) in
  (exists m, In m (messages (snd ts))
             /\ Message.id m = assistantMsgId (fst ts)) /\
  (forall m, In m (messages (snd ts)) ->
             Message.id m = assistantMsgId (fst ts) ->
             Message.isError m = true
             /\ Message.content m = error_text (text (Event.error e))).
Proof.
  intros Hft He ts. subst ts. rewrite handle_events_app.
  set (ts0 := handle_events es (send_begin content c1 c2 s)).
  assert (H0 : tracked ts0)
    by (apply handle_events_tracked, send_begin_tracked).
  change (handle_events [e] ts0) with (handle_event e ts0).
  split.
  - apply (handle_event_tracked e) in H0. unfold tracked in H0.
    apply in_map_iff in H0. destruct H0 as [m [Hid Hin]]. now exists m.
  - rewrite (handle_event_falls _ _ Hft), handle_rest_eq. cbn [fst snd].
    unfold failure. rewrite He.
    cbn [messages set_agentStage set_isStreaming set_messages].
    intros m Hin Hid. apply update_id_hit in Hin; auto.
    destruct Hin as [m0 [_ [_ Hm]]]. now subst m.
Qed.

(** C4, amended, on the run [Once upon], then the failure [boom]. *)
Lemma failure_replaces_content_witness :
  let ts := handle_events ([ContentDelta "Once upon"] ++ [Failure "boom"])
              (send_begin "Tell me a story" sample_clock sample_clock
                 sample_store) in
  (exists m, In m (messages (snd ts))
             /\ Message.id m = assistantMsgId (fst ts)) /\
  (forall m, In m (messages (snd ts)) ->
             Message.id m = assistantMsgId (fst ts) ->
             Message.isError m = true
             /\ Message.content m = error_text "boom").
Proof.
  apply (failure_replaces_content "Tell me a story" sample_clock sample_clock
           sample_store [ContentDelta "Once upon"] (Failure "boom"));
    reflexivity.
Defined.

(** ** The image gallery (C5) *)

(** C5 as stated fails: the same image record twice in one turn gives two
    equal entries. *)
Lemma image_ready_twice_two_entries :
  ~ image_append_idempotent (ImageReady "/images/7.png")
      (send_begin "Draw it" sample_clock sample_clock sample_store).
Proof. unfold image_append_idempotent. simpl. discriminate. Qed.

Lemma image_ready_images e t s :
  sessionImages (image_ready e t s)
  = if strict_eq (Event.type e) "image" && truthy (Event.url e)
    then (sessionImages s
            ++ [Image.mk (text (Event.url e)) (assistantMsgId t)])%list
    else sessionImages s.
Proof.
  unfold image_ready.
  destruct (strict_eq (Event.type e) "image" && truthy (Event.url e));
    reflexivity.
Qed.

Lemma stage_change_images e s :
  sessionImages (stage_change e s) = sessionImages s.
Proof.
  unfold stage_change. destruct (truthy (Event.stage e)); auto.
  destruct (strict_eq (Event.stage e) "director");
    destruct (strict_eq (Event.stage e) "paint_director"); reflexivity.
Qed.

Lemma strict_eq_inj v a b : strict_eq v a = true -> strict_eq v b = true -> a = b.
Proof.
  destruct v as [x|]; simpl; try discriminate.
  intros Ha Hb. apply String.eqb_eq in Ha, Hb. congruence.
Qed.

(** A record of type [image] is taken by no [continue] branch. *)
Lemma image_falls_through e :
  strict_eq (Event.type e) "image" = true -> falls_through e = true.
Proof.
  intros H. unfold falls_through, is_director_chunk, is_paint_chunk.
  destruct (strict_eq (Event.type e) "director_chunk") eqn:E1;
    [pose proof (strict_eq_inj _ _ _ H E1); discriminate|].
  destruct (strict_eq (Event.type e) "outline") eqn:E2;
    [pose proof (strict_eq_inj _ _ _ H E2); discriminate|].
  destruct (strict_eq (Event.type e) "paint_chunk") eqn:E3;
    [pose proof (strict_eq_inj _ _ _ H E3); discriminate|].
  reflexivity.
Qed.

Lemma image_prompt_images e s :
  sessionImages (image_prompt e s) = sessionImages s.
Proof.
  unfold image_prompt.
  destruct (strict_eq (Event.type e) "image" && truthy (Event.prompt e));
    reflexivity.
Qed.

Lemma content_delta_images e ts :
  sessionImages (snd (content_delta e ts)) = sessionImages (snd ts).
Proof.
  destruct ts as [t s]. unfold content_delta.
  destruct (is_content_delta e); reflexivity.
Qed.

Lemma post_processed_images e t s :
  sessionImages (post_processed e t s) = sessionImages s.
Proof.
  unfold post_processed.
  destruct (strict_eq (Event.type e) "processed_content"
            && truthy (Event.content e)); reflexivity.
Qed.

Lemma id_assigned_images e ts :
  sessionImages (snd (id_assigned e ts)) = sessionImages (snd ts).
Proof.
  destruct ts as [t s]. unfold id_assigned.
  destruct (is_id_assigned e t); reflexivity.
Qed.

Lemma done_event_images e t s :
  sessionImages (done_event e t s) = sessionImages s.
Proof.
  unfold done_event. destruct (truthyB (Event.done e)); auto.
  destruct (truthy (Event.processed_content e)); reflexivity.
Qed.

Lemma failure_images e t s : sessionImages (failure e t s) = sessionImages s.
Proof. unfold failure. destruct (truthy (Event.error e)); reflexivity. Qed.

Lemma image_ready_appends (e : Event) (t : Turn) (s : Store) :
  strict_eq (Event.type e) "image" = true ->
  truthy (Event.url e) = true ->
  sessionImages (snd (handle_event e (t, s)))
  = (sessionImages s
       ++ [Image.mk (text (Event.url e)) (assistantMsgId t)])%list.
Proof.
  intros Hty Hu.
  rewrite (handle_event_falls _ _ (image_falls_through e Hty)).
  rewrite handle_rest_eq. cbn [fst snd].
  rewrite failure_images, done_event_images. unfold before_done.
  rewrite id_assigned_images. cbn [fst snd].
  rewrite post_processed_images, image_ready_images, Hty, Hu. cbn [andb].
  rewrite content_delta_images, content_delta_id. cbn [fst snd].
  now rewrite image_prompt_images, stage_change_images.
Qed.

(** A record that does not rename leaves the tracked id as it is. *)
Lemma handle_event_same_id e t s :
  is_id_assigned e t = false ->
  assistantMsgId (fst (handle_event e (t, s))) = assistantMsgId t.
Proof.
  intros Hid. unfold handle_event.
  destruct (is_director_chunk e); auto.
  destruct (strict_eq (Event.type e) "outline"); auto.
  destruct (is_paint_chunk e); auto.
  rewrite handle_rest_eq. cbn [fst snd]. unfold before_done. cbn [fst snd].
  unfold id_assigned.
  replace (is_id_assigned e
             (fst (content_delta e (t, image_prompt e (stage_change e s)))))
    with (is_id_assigned e t)
    by (unfold is_id_assigned; now rewrite content_delta_id).
  rewrite Hid. cbn [fst]. apply content_delta_id.
Qed.

(** C5, amended.  In [sendMessage] a record of type [image] with a url puts
    one entry, the url with the id the turn tracks, at the end of
    [sessionImages], whatever is there already; the same record handled
    twice in a row, the tracked id staying the same, puts two equal
    entries. *)
Theorem image_ready_appends_each_time
  (e : Event) (t : Turn) (s : Store) :
  strict_eq (Event.type e) "image" = true ->
  truthy (Event.url e) = true ->
  let entry := Image.mk (text (Event.url e)) (assistantMsgId t) in
  sessionImages (snd (handle_events [e] (t, s)))
  = (sessionImages s ++ [entry])%list
  /\ (is_id_assigned e t = false ->
      sessionImages (snd (handle_events [e; e] (t, s)))
      = (sessionImages s ++ [entry; entry])%list).
Proof.
  intros Hty Hu entry. subst entry. split.
  - now apply image_ready_appends.
  - intros Hid. cbn [handle_events fold_left].
    destruct (handle_event e (t, s)) as [t1 s1] eqn:E1.
    rewrite image_ready_appends; auto.
    assert (Hs : sessionImages s1
                 = (sessionImages s
                      ++ [Image.mk (text (Event.url e)) (assistantMsgId t)])%list).
    { change s1 with (snd (t1, s1)). rewrite <- E1.
      now apply image_ready_appends. }
    assert (Ht : assistantMsgId t1 = assistantMsgId t).
    { change t1 with (fst (t1, s1)). rewrite <- E1.
      now apply handle_event_same_id. }
    rewrite Hs, Ht, <- app_assoc. reflexivity.
Qed.

(** C5, amended, on one image record handled once and twice. *)
Lemma image_ready_appends_each_time_witness :
  let t := mkTurn "" "assistant-1" in
  let entry := Image.mk "/images/7.png" "assistant-1" in
  sessionImages (snd (handle_events [ImageReady "/images/7.png"]
                        (t, sample_store)))
  = [entry]
  /\ (is_id_assigned (ImageReady "/images/7.png") t = false ->
      sessionImages
        (snd (handle_events
                [ImageReady "/images/7.png"; ImageReady "/images/7.png"]
                (t, sample_store)))
      = [entry; entry]).
Proof.
  apply (image_ready_appends_each_time (ImageReady "/images/7.png")
           (mkTurn "" "assistant-1") sample_store); reflexivity.
Defined.

(** ** Stage chunks (C8) *)

Lemma stage_change_isStreaming e s :
  isStreaming (stage_change e s) = isStreaming s.
Proof.
  unfold stage_change. destruct (truthy (Event.stage e)); auto.
  destruct (strict_eq (Event.stage e) "director");
    destruct (strict_eq (Event.stage e) "paint_director"); reflexivity.
Qed.

Lemma paint_chunk_not_director e :
  is_paint_chunk e = true ->
  is_director_chunk e = false /\ strict_eq (Event.type e) "outline" = false.
Proof.
  unfold is_paint_chunk, is_director_chunk. intros H.
  apply andb_prop in H. destruct H as [H _]. split.
  - destruct (strict_eq (Event.type e) "director_chunk") eqn:E; auto.
    pose proof (strict_eq_inj _ _ _ H E). discriminate.
  - destruct (strict_eq (Event.type e) "outline") eqn:E; auto.
    pose proof (strict_eq_inj _ _ _ H E). discriminate.
Qed.

(** C8.  In [sendMessage] a record of type [director_chunk] or
    [paint_chunk] with a content is handled by the stage branch (when the
    record also names a stage) and then by the append to the accumulator of
    its type, and by nothing else: the locals of the turn, the messages, the
    images and [isStreaming] are as before, whatever other fields the record
    carries; without a stage field the store changes in that accumulator
    alone. *)
Theorem stage_chunk_only_accumulates (e : Event) (t : Turn) (s : Store) :
  is_director_chunk e = true \/ is_paint_chunk e = true ->
  let r := handle_event e (t, s) in
  let s0 := stage_change e s in
  let d := text (Event.content e) in
  fst r = t
  /\ messages (snd r) = messages s
  /\ sessionImages (snd r) = sessionImages s
  /\ isStreaming (snd r) = isStreaming s
  /\ (is_director_chunk e = true ->
      snd r = set_directorOutput (directorOutput s0 ++ d) s0)
  /\ (is_paint_chunk e = true ->
      snd r = set_paintDirectorOutput (paintDirectorOutput s0 ++ d) s0)
  /\ (truthy (Event.stage e) = false -> s0 = s).
Proof.
  intros H r s0 d. subst r s0 d. unfold handle_event.
  assert (Hs : truthy (Event.stage e) = false -> stage_change e s = s)
    by (intros Hst; unfold stage_change; now rewrite Hst).
  destruct (is_director_chunk e) eqn:Ed.
  - cbn [fst snd]. unfold director_chunk.
    cbn [messages sessionImages isStreaming set_directorOutput].
    rewrite stage_change_messages, stage_change_images,
      stage_change_isStreaming.
    repeat split; auto. intros Hp.
    destruct (paint_chunk_not_director e Hp) as [Hd _]. congruence.
  - destruct H as [H|H]; [discriminate|].
    destruct (paint_chunk_not_director e H) as [_ Ho]. rewrite Ho, H.
    cbn [fst snd]. unfold paint_chunk.
    cbn [messages sessionImages isStreaming set_paintDirectorOutput].
    rewrite stage_change_messages, stage_change_images,
      stage_change_isStreaming.
    repeat split; auto. discriminate.
Qed.

(** C8 on a director chunk that also carries an id, a completion mark and
    an error: none of the three is acted on. *)
Lemma stage_chunk_only_accumulates_witness :
  let e := Event.mk None (Some "director_chunk") (Some "Act I. ") None None
             (Some "srv-99") (Some true) None (Some "boom") in
  let t := mkTurn "so far" "assistant-1" in
  let s := set_directorOutput "Outline: "
             (snd (send_begin "Hi" sample_clock sample_clock sample_store)) in
  fst (handle_event e (t, s)) = t
  /\ snd (handle_event e (t, s)) = set_directorOutput "Outline: Act I. " s.
Proof.
  intros e t s.
  destruct (stage_chunk_only_accumulates e t s (or_introl eq_refl))
    as [H1 [_ [_ [_ [H5 _]]]]].
  split; [exact H1|]. rewrite (H5 eq_refl). reflexivity.
Defined.

(** ** Deltas accumulate in [assistantContent] (C9) *)

Lemma content_delta_not_continue e :
  is_content_delta e = true -> falls_through e = true.
Proof.
  unfold is_content_delta. intros H. apply andb_prop in H.
  destruct H as [H _].
  unfold falls_through, is_director_chunk, is_paint_chunk.
  destruct (strict_eq (Event.type e) "director_chunk") eqn:E1;
    [pose proof (strict_eq_inj _ _ _ H E1); discriminate|].
  destruct (strict_eq (Event.type e) "outline") eqn:E2;
    [pose proof (strict_eq_inj _ _ _ H E2); discriminate|].
  destruct (strict_eq (Event.type e) "paint_chunk") eqn:E3;
    [pose proof (strict_eq_inj _ _ _ H E3); discriminate|].
  reflexivity.
Qed.

Lemma id_assigned_content e ts :
  assistantContent (fst (id_assigned e ts)) = assistantContent (fst ts).
Proof.
  destruct ts as [t s]. unfold id_assigned.
  destruct (is_id_assigned e t); reflexivity.
Qed.

Lemma handle_rest_content e ts :
  assistantContent (fst (handle_rest e ts))
  = assistantContent (fst ts) ++ delta_of e.
Proof.
  rewrite handle_rest_eq. cbn [fst]. unfold before_done.
  rewrite id_assigned_content. cbn [fst].
  unfold content_delta, delta_of. cbn [fst snd].
  destruct (is_content_delta e); cbn [fst assistantContent]; auto.
  now rewrite append_nil_r.
Qed.

Lemma handle_event_content e ts :
  assistantContent (fst (handle_event e ts))
  = assistantContent (fst ts) ++ delta_of e.
Proof.
  destruct (falls_through e) eqn:F.
  - rewrite (handle_event_falls _ _ F). now rewrite handle_rest_content.
  - assert (Hd : delta_of e = "").
    { unfold delta_of. destruct (is_content_delta e) eqn:E; auto.
      apply content_delta_not_continue in E. congruence. }
    rewrite Hd, append_nil_r. destruct ts as [t s]. unfold handle_event.
    unfold falls_through in F.
    destruct (is_director_chunk e); auto.
    destruct (strict_eq (Event.type e) "outline"); auto.
    destruct (is_paint_chunk e); auto. discriminate.
Qed.

(** The local accumulator is the concatenation of the deltas so far, in
    arrival order. *)
Lemma handle_events_content es ts :
  assistantContent (fst (handle_events es ts))
  = assistantContent (fst ts) ++ fold_right String.append "" (map delta_of es).
Proof.
  revert ts. induction es as [|e es IH]; intros ts; simpl.
  - now rewrite append_nil_r.
  - unfold handle_events in IH. rewrite IH, handle_event_content.
    apply append_assoc.
Qed.

(** What a pure content delta does. *)
Lemma handle_content_delta (d : string) (t : Turn) (s : Store) :
  d <> "" ->
  handle_event (ContentDelta d) (t, s)
  = (mkTurn (assistantContent t ++ d) (assistantMsgId t),
     set_messages
       (update_id (assistantMsgId t)
          (Message.with_content (assistantContent t ++ d)) (messages s)) s).
Proof.
  intros Hd. destruct d as [|a d]; [congruence|].
  destruct s, t; reflexivity.
Qed.

(** What a pure processed-content record does. *)
Lemma handle_post_processed (p : string) (t : Turn) (s : Store) :
  p <> "" ->
  handle_event (PostProcessed p) (t, s)
  = (t,
     set_messages
       (update_id (assistantMsgId t) (Message.with_content p) (messages s)) s).
Proof.
  intros Hp. destruct p as [|a p]; [congruence|].
  destruct s, t; reflexivity.
Qed.

(** C9.  In [sendMessage], after any records [es], a processed-content
    record [p] makes [p] the content of the message of the turn, and a
    content delta [d] that follows sets the content to all deltas received
    so far, those of [es] and then [d]: the processed text is gone. *)
Theorem delta_after_post_processed_restores_deltas
  (content : string) (c1 c2 : Clock) (s : Store)
  (es : list Event) (p d : string) :
  p <> "" -> d <> "" ->
  let ts1 := handle_events (es ++ [PostProcessed p])
               (send_begin content c1 c2 s) in
  let ts2 := handle_events [ContentDelta d] ts1 in
  (exists m, In m (messages (snd ts2))
             /\ Message.id m = assistantMsgId (fst ts2))
  /\ (forall m, In m (messages (snd ts1)) ->
                Message.id m = assistantMsgId (fst ts1) ->
                Message.content m = p)
  /\ (forall m, In m (messages (snd ts2)) ->
                Message.id m = assistantMsgId (fst ts2) ->
                Message.content m
                = fold_right String.append "" (map delta_of es) ++ d).
Proof.
  intros Hp Hd ts1 ts2.
  assert (Htr2 : tracked ts2)
    by (subst ts2 ts1; repeat apply handle_events_tracked;
        apply send_begin_tracked).
  split; [|split].
  - unfold tracked in Htr2. apply in_map_iff in Htr2.
    destruct Htr2 as [m [Hid Hin]]. now exists m.
  - subst ts1. rewrite handle_events_app.
    destruct (handle_events es (send_begin content c1 c2 s)) as [t0 s0].
    change (handle_events [PostProcessed p] (t0, s0))
      with (handle_event (PostProcessed p) (t0, s0)).
    rewrite handle_post_processed by assumption. cbn [fst snd].
    cbn [messages set_messages]. intros m Hin Hid.
    apply update_id_hit in Hin; auto.
    destruct Hin as [m0 [_ [_ Hm]]]. now subst m.
  - assert (Hc : assistantContent (fst ts1)
                 = fold_right String.append "" (map delta_of es)).
    { subst ts1. rewrite handle_events_content, map_app, fold_right_app.
      destruct p as [|a p]; [congruence|]. reflexivity. }
    subst ts2. destruct ts1 as [t1 s1]. cbn [fst] in Hc.
    change (handle_events [ContentDelta d] (t1, s1))
      with (handle_event (ContentDelta d) (t1, s1)).
    rewrite handle_content_delta by assumption. cbn [fst snd].
    cbn [messages set_messages assistantMsgId]. intros m Hin Hid.
    apply update_id_hit in Hin; auto.
    destruct Hin as [m0 [_ [_ Hm]]]. subst m. cbn [Message.content Message.with_content].
    now rewrite Hc.
Qed.

(** C9 on deltas [Hello] and [ world], the processed text [HELLO WORLD],
    then the delta [!]: the message shows [Hello world!]. *)
Lemma delta_after_post_processed_restores_deltas_witness :
  let ts1 := handle_events
               ([ContentDelta "Hello"; ContentDelta " world"]
                  ++ [PostProcessed "HELLO WORLD"])
               (send_begin "Hi" sample_clock sample_clock sample_store) in
  let ts2 := handle_events [ContentDelta "!"] ts1 in
  (exists m, In m (messages (snd ts2))
             /\ Message.id m = assistantMsgId (fst ts2))
  /\ (forall m, In m (messages (snd ts1)) ->
                Message.id m = assistantMsgId (fst ts1) ->
                Message.content m = "HELLO WORLD")
  /\ (forall m, In m (messages (snd ts2)) ->
                Message.id m = assistantMsgId (fst ts2) ->
                Message.content m = "Hello world!").
Proof.
  apply (delta_after_post_processed_restores_deltas "Hi" sample_clock
           sample_clock sample_store
           [ContentDelta "Hello"; ContentDelta " world"] "HELLO WORLD" "!");
    discriminate.
Defined.

(** ** The canonical id in sendMessage *)

(** What a pure id record does when the id is new. *)
Lemma handle_id_assigned (i : string) (t : Turn) (s : Store) :
  i <> "" -> i <> assistantMsgId t ->
  handle_event (IdAssigned i) (t, s)
  = (mkTurn (assistantContent t) i,
     set_messages
       (update_id (assistantMsgId t) (Message.with_id i) (messages s)) s).
Proof.
  intros Hi Hne. destruct i as [|a i]; [congruence|].
  unfold handle_event, IdAssigned. cbn [is_director_chunk is_paint_chunk
    strict_eq Event.type Event.content truthy andb stage_change Event.stage].
  unfold handle_rest, image_prompt, content_delta, is_content_delta,
    image_ready, post_processed, done_event, failure, id_assigned,
    is_id_assigned.
  cbn [strict_eq Event.type Event.content Event.prompt Event.url
         Event.message_id Event.done Event.error Event.processed_content
         truthy truthyB andb text fst snd].
  apply String.eqb_neq in Hne. rewrite Hne. reflexivity.
Qed.

(** In [sendMessage] the rename is one [map] over the list: every message
    keeps its place and its content, no message carries the provisional id
    any more, and a delta that follows is written to the messages that carry
    the canonical id. *)
Lemma send_rename_in_place (i d : string) (t : Turn) (s : Store) :
  i <> "" -> i <> assistantMsgId t -> d <> "" ->
  let r := handle_event (IdAssigned i) (t, s) in
  let r2 := handle_event (ContentDelta d) r in
  assistantMsgId (fst r) = i
  /\ map Message.content (messages (snd r))
     = map Message.content (messages s)
  /\ map Message.id (messages (snd r))
     = map (fun x => if String.eqb x (assistantMsgId t) then i else x)
         (map Message.id (messages s))
  /\ ~ In (assistantMsgId t) (map Message.id (messages (snd r)))
  /\ (forall m, In m (messages (snd r2)) -> Message.id m = i ->
                Message.content m = assistantContent t ++ d)
  /\ ~ In (assistantMsgId t) (map Message.id (messages (snd r2))).
Proof.
  intros Hi Hne Hd r r2. subst r2 r.
  rewrite handle_id_assigned by assumption.
  rewrite handle_content_delta by assumption.
  cbn [fst snd messages set_messages assistantMsgId assistantContent].
  assert (Hids :
    map Message.id (update_id (assistantMsgId t) (Message.with_id i) (messages s))
    = map (fun x => if String.eqb x (assistantMsgId t) then i else x)
        (map Message.id (messages s))).
  { unfold update_id. rewrite !map_map. apply map_ext. intros m.
    destruct (String.eqb (Message.id m) (assistantMsgId t)); reflexivity. }
  assert (Hno :
    ~ In (assistantMsgId t)
        (map Message.id
           (update_id (assistantMsgId t) (Message.with_id i) (messages s)))).
  { rewrite Hids. intros H. apply in_map_iff in H.
    destruct H as [x [Hx _]].
    destruct (String.eqb x (assistantMsgId t)) eqn:E.
    - congruence.
    - apply String.eqb_neq in E. congruence. }
  repeat split; auto.
  - unfold update_id. rewrite !map_map. apply map_ext. intros m.
    destruct (String.eqb (Message.id m) (assistantMsgId t)); reflexivity.
  - intros m Hin Hid. apply update_id_hit in Hin; auto.
    destruct Hin as [m0 [_ [_ Hm]]]. now subst m.
  - rewrite update_id_ids; auto.
Qed.

(** ** The guards of regenerateMessage (C10) *)

Lemma findIndex_none {A : Type} (p : A -> bool) (l : list A) :
  (forall x, In x l -> p x = false) -> findIndex p l = None.
Proof.
  induction l as [|x r IH]; intros H; simpl; auto.
  rewrite (H x (or_introl eq_refl)), IH; auto.
  intros y Hy. apply H. now right.
Qed.

(** C10.  [regenerateMessage] called with no active session, with no
    message id (null, undefined or the empty string), or with an id that no
    message of the list carries, returns before its [fetch] and leaves the
    store as it is, whatever the server would have answered. *)
Theorem regenerate_guards (messageId : option string) (s : Store) :
  activeSession s = None
  \/ truthy messageId = false
  \/ ~ In (text messageId) (map Message.id (messages s)) ->
  regen_begin messageId s = (Returned, s)
  /\ forall (TD : TextDecoder) (JR : JsonReader) (c : Clock)
            (resp : Response),
       regenerateMessage messageId c resp s = s.
Proof.
  intros H.
  assert (Hb : regen_begin messageId s = (Returned, s)).
  { unfold regen_begin. destruct (activeSession s) as [session|]; auto.
    destruct (truthy messageId) eqn:Et; auto.
    destruct H as [H|[H|H]]; try discriminate.
    rewrite findIndex_none; auto.
    intros m Hin. apply String.eqb_neq. intros Heq. apply H.
    rewrite <- Heq. now apply in_map. }
  split; auto. intros TD JR c resp. unfold regenerateMessage.
  now rewrite Hb.
Qed.

(** C10 on an id that no message carries. *)
Lemma regenerate_guards_witness :
  regen_begin (Some "a2") chat_store = (Returned, chat_store)
  /\ forall (TD : TextDecoder) (JR : JsonReader) (c : Clock)
            (resp : Response),
       regenerateMessage (Some "a2") c resp chat_store = chat_store.
Proof.
  apply (regenerate_guards (Some "a2") chat_store).
  right. right. simpl. intros [H|[H|H]]; try discriminate H; exact H.
Defined.

(** ** Splitting at line feeds *)

Lemma split_not_nil c s : split c s <> [].
Proof.
  destruct s as [|a r]; simpl; [discriminate|].
  destruct (Ascii.eqb a c); [discriminate|].
  destruct (split c r); discriminate.
Qed.

Lemma removelast_cons {A : Type} (x : A) (l : list A) :
  l <> [] -> removelast (x :: l) = x :: removelast l.
Proof. destruct l; [congruence|reflexivity]. Qed.

Lemma last_cons {A : Type} (x d : A) (l : list A) :
  l <> [] -> last (x :: l) d = last l d.
Proof. destruct l; [congruence|reflexivity]. Qed.

Lemma last_app_r {A : Type} (l l' : list A) (d : A) :
  l' <> [] -> last (l ++ l')%list d = last l' d.
Proof.
  intros H. induction l as [|x l IH]; [reflexivity|].
  cbn [app]. rewrite last_cons; auto.
  destruct l; [assumption|discriminate].
Qed.

(** Splitting a text in two pieces: the lines of the first piece but its
    last, then the split of that last one continued by the second piece. *)
Lemma split_app c (a b : string) :
  split c (a ++ b)
  = (removelast (split c a) ++ split c (last (split c a) "" ++ b))%list.
Proof.
  induction a as [|x a IH]; [reflexivity|].
  cbn [split String.append]. destruct (Ascii.eqb x c) eqn:E.
  - rewrite removelast_cons, last_cons by apply split_not_nil.
    cbn [app]. now rewrite IH.
  - rewrite IH. destruct (split c a) as [|h [|h2 t]] eqn:Es.
    + now destruct (split_not_nil c a).
    + cbn [removelast last app split String.append]. now rewrite E.
    + rewrite !removelast_cons, !last_cons by discriminate. reflexivity.
Qed.

Lemma one_line_last c s : one_line c (last (split c s) "").
Proof.
  unfold one_line. induction s as [|x s IH]; [reflexivity|].
  cbn [split]. destruct (Ascii.eqb x c) eqn:E.
  - now rewrite last_cons by apply split_not_nil.
  - destruct (split c s) as [|h [|h2 t]] eqn:Es.
    + now destruct (split_not_nil c s).
    + cbn [last] in *. cbn [split]. now rewrite E, IH.
    + rewrite last_cons by discriminate. exact IH.
Qed.

Lemma split_line c (l rest : string) :
  one_line c l -> split c (l ++ String c rest) = l :: split c rest.
Proof.
  unfold one_line. induction l as [|x l IH]; intros H.
  - cbn [String.append split]. now rewrite Ascii.eqb_refl.
  - cbn [String.append split] in *. destruct (Ascii.eqb x c); [discriminate|].
    destruct (split c l) as [|h [|h2 t]] eqn:Es; try discriminate.
    + now destruct (split_not_nil c l).
    + injection H as Hh. rewrite Hh in *. now rewrite IH.
Qed.

Lemma split_other c x (s : string) :
  Ascii.eqb x c = false ->
  split c (String x s)
  = match split c s with
    | [] => [String x ""]
    | h :: t => String x h :: t
    end.
Proof. intros E. cbn [split]. now rewrite E. Qed.

(** The text of lines that each end in the separator splits into these
    lines and an empty rest. *)
Lemma split_lines c (ls : list string) :
  Forall (one_line c) ls ->
  split c (fold_right String.append ""
             (map (fun l => l ++ String c "") ls))
  = (ls ++ [""])%list.
Proof.
  induction 1 as [|l ls Hl _ IH]; [reflexivity|].
  cbn [map fold_right]. rewrite append_assoc.
  cbn [String.append]. rewrite split_line by assumption.
  now rewrite IH.
Qed.

Lemma substring_all (s : string) : substring 0 (String.length s) s = s.
Proof. induction s as [|a s IH]; simpl; congruence. Qed.

Lemma slice_data (p : string) : slice 6 ("data: " ++ p) = p.
Proof. unfold slice. simpl. rewrite Nat.sub_0_r. apply substring_all. Qed.

Lemma startsWith_data (p : string) : startsWith "data: " ("data: " ++ p) = true.
Proof.
  unfold startsWith. simpl. destruct p; reflexivity.
Qed.

Section StreamFacts.
Context {TD : TextDecoder} {JR : JsonReader}.

Lemma send_lines_app l1 l2 ts :
  send_lines (l1 ++ l2)%list ts = send_lines l2 (send_lines l1 ts).
Proof. unfold send_lines. apply fold_left_app. Qed.

Lemma regen_lines_app l1 l2 ts :
  regen_lines (l1 ++ l2)%list ts = regen_lines l2 (regen_lines l1 ts).
Proof. unfold regen_lines. apply fold_left_app. Qed.

(** ** Malformed frames (C7) *)

(** C7.  A line [data: payload] whose payload [JSON.parse] rejects, both as
    it stands ([regenerateMessage]) and trimmed ([sendMessage]), changes
    neither the store nor the locals of the loop, and the loop goes on:
    the lines around it are handled as if it were not there. *)
Theorem malformed_frame_dropped
  (payload : string) (pre post : list string)
  (ts : Turn * Store) (rts : RegenTurn * Store) :
  JSON_parse (trim payload) = None ->
  JSON_parse payload = None ->
  let frame := "data: " ++ payload in
  send_line frame ts = ts
  /\ send_lines (pre ++ frame :: post) ts = send_lines (pre ++ post) ts
  /\ regen_line frame rts = rts
  /\ regen_lines (pre ++ frame :: post) rts = regen_lines (pre ++ post) rts.
Proof.
  intros Ht Hr frame. subst frame.
  assert (Hs : forall x, send_line ("data: " ++ payload) x = x).
  { intros x. unfold send_line. rewrite startsWith_data, slice_data, Ht.
    now destruct (_ || _). }
  assert (Hg : forall x, regen_line ("data: " ++ payload) x = x).
  { intros x. unfold regen_line. rewrite startsWith_data, slice_data, Hr.
    now destruct (String.eqb payload "[DONE]"). }
  repeat split; auto.
  - rewrite !send_lines_app. cbn [send_lines fold_left]. now rewrite Hs.
  - rewrite !regen_lines_app. cbn [regen_lines fold_left]. now rewrite Hg.
Qed.

(** ** Reassembly of lines in sendMessage *)

Lemma decode_stream_app (d : dstate) (a b : string) :
  decode_stream d (a ++ b)
  = (fst (decode_stream (fst (decode_stream d a)) b),
     snd (decode_stream d a)
       ++ snd (decode_stream (fst (decode_stream d a)) b)).
Proof.
  revert d. induction a as [|x a IH]; intros d.
  - cbn [String.append decode_stream fst snd].
    now destruct (decode_stream d b).
  - cbn [String.append decode_stream]. destruct (dfeed d x) as [d1 o1].
    rewrite IH. destruct (decode_stream d1 a) as [d2 o2]. cbn [fst snd].
    destruct (decode_stream d2 b) as [d3 o3]. cbn [fst snd].
    now rewrite append_assoc.
Qed.

(** The loop over chunks does what one pass over the whole decoded text
    does: the lines before the last line feed are handled in order, what
    follows it is the buffer. *)
Lemma send_chunks_whole (values : list string) (r : Reader)
  (ts : Turn * Store) :
  one_line LF (buffer r) ->
  let dt := decode_stream (decoder r) (fold_right String.append "" values) in
  let lines := split LF (buffer r ++ snd dt) in
  send_chunks values (r, ts)
  = (mkReader (fst dt) (last lines ""), send_lines (removelast lines) ts).
Proof.
  revert r ts. induction values as [|v vs IH]; intros r ts Hb dt lines.
  - subst lines dt. cbn [fold_right decode_stream fst snd send_chunks fold_left].
    rewrite append_nil_r, Hb. destruct r; reflexivity.
  - subst lines dt. cbn [fold_right send_chunks fold_left].
    fold (send_chunks vs (send_chunk v (r, ts))).
    unfold send_chunk at 1. rewrite decode_stream_app.
    destruct (decode_stream (decoder r) v) as [d1 t1]. cbn [fst snd].
    rewrite IH by (cbn [buffer]; apply one_line_last).
    cbn [decoder buffer].
    destruct (decode_stream d1 (fold_right String.append "" vs)) as [d2 t2].
    cbn [fst snd]. rewrite <- append_assoc, (split_app LF (buffer r ++ t1) t2).
    set (l1 := split LF (buffer r ++ t1)).
    set (l2 := split LF (last l1 "" ++ t2)).
    assert (Hl2 : l2 <> []) by apply split_not_nil.
    rewrite last_app_r by assumption.
    rewrite removelast_app by assumption.
    now rewrite send_lines_app.
Qed.

(** However the bytes of a response are cut into chunks, [sendMessage]
    ends in the same reader, locals and store as on the uncut response. *)
Theorem send_chunks_cut_anywhere (values : list string)
  (ts : Turn * Store) :
  send_chunks values (new_reader, ts)
  = send_chunks [fold_right String.append "" values] (new_reader, ts).
Proof.
  rewrite !send_chunks_whole by reflexivity.
  cbn [fold_right]. now rewrite append_nil_r.
Qed.

(** When the bytes decode to [N] lines [data: p] each closed by a line
    feed, exactly these [N] lines are handled, in order, and the buffer is
    left empty. *)
Theorem send_chunks_complete_lines (values : list string)
  (ps : list string) (ts : Turn * Store) :
  Forall (one_line LF) ps ->
  snd (decode_stream dinit (fold_right String.append "" values))
  = fold_right String.append ""
      (map (fun l => l ++ nl) (map (String.append "data: ") ps)) ->
  snd (send_chunks values (new_reader, ts))
  = send_lines (map (String.append "data: ") ps) ts
  /\ buffer (fst (send_chunks values (new_reader, ts))) = "".
Proof.
  intros Hps Hdec. rewrite send_chunks_whole by reflexivity.
  cbn [new_reader decoder buffer String.append fst snd]. rewrite Hdec.
  unfold nl. rewrite split_lines.
  - rewrite removelast_last, last_last. auto.
  - apply Forall_forall. intros l Hl. apply in_map_iff in Hl.
    destruct Hl as [p [Hp Hin]]. subst l.
    rewrite Forall_forall in Hps. specialize (Hps p Hin).
    unfold one_line in *. cbn [String.append].
    repeat (rewrite split_other by reflexivity).
    now rewrite Hps.
Qed.

End StreamFacts.

(** Two frames in three chunks, cut inside the first frame and inside the
    [data: ] of the second. *)
Example two_frames_three_chunks :
  let p1 := js "{'type':'content','content':'Once'}" in
  let p2 := js "{'type':'content','content':' upon'}" in
  let values := ["data: " ++ js "{'type':'con";
                 js "tent','content':'Once'}" ++ nl ++ "da";
                 "ta: " ++ p2 ++ nl] in
  let ts := send_begin "Hi" sample_clock sample_clock sample_store in
  snd (send_chunks values (new_reader, ts))
  = send_lines ["data: " ++ p1; "data: " ++ p2] ts
  /\ buffer (fst (send_chunks values (new_reader, ts))) = "".
Proof.
  intros p1 p2 values ts.
  apply (send_chunks_complete_lines values [p1; p2] ts).
  - repeat constructor.
  - reflexivity.
Qed.

(** ** Runs on the two instances *)

(** C7 on the truncated payload of the specification: it is dropped and
    the next frame is handled, in both loops. *)
Lemma malformed_frame_dropped_witness :
  let payload := js "{'content': 'ok'" in
  let next := "data: " ++ js "{'type':'content','content':'next'}" in
  let ts := send_begin "Hi" sample_clock sample_clock sample_store in
  let rts := regen_open sample_clock 1 chat_store in
  send_line ("data: " ++ payload) ts = ts
  /\ send_lines ([] ++ ("data: " ++ payload) :: [next]) ts
     = send_lines ([] ++ [next]) ts
  /\ regen_line ("data: " ++ payload) rts = rts
  /\ regen_lines ([] ++ ("data: " ++ payload) :: [next]) rts
     = regen_lines ([] ++ [next]) rts.
Proof.
  intros payload next ts rts.
  apply (malformed_frame_dropped payload [] [next] ts rts); reflexivity.
Defined.

(** *** A frame cut in two chunks (C1) *)

(** C1.  One frame, [data: {type: content, content: Hello}], arrives whole
    or cut in two chunks after [Hel].  [sendMessage] shows [Hello] both
    times.  [regenerateMessage] shows [Hello] for the whole frame and
    nothing for the cut one: it splits each chunk on its own and keeps no
    buffer, so the first half fails to parse and the second half is no
    [data: ] line. *)
Theorem regen_cut_frame_lost :
  let whole := frame "{'type':'content','content':'Hello'}" in
  let part1 := "data: " ++ js "{'type':'content','content':'Hel" in
  let part2 := js "lo'}" ++ nl in
  let contents s := map Message.content (messages s) in
  part1 ++ part2 = whole
  /\ contents (sendMessage "Hi" sample_clock sample_clock
                 (Body [whole] None) sample_store)
     = ["Hi"; "Hello"]
  /\ contents (sendMessage "Hi" sample_clock sample_clock
                 (Body [part1; part2] None) sample_store)
     = ["Hi"; "Hello"]
  /\ contents (regenerateMessage (Some "a1") sample_clock
                 (Body [whole] None) chat_store)
     = ["Tell me a story"; "Hello"]
  /\ contents (regenerateMessage (Some "a1") sample_clock
                 (Body [part1; part2] None) chat_store)
     = ["Tell me a story"; ""].
Proof. vm_compute. repeat split. Qed.

(** So the loop of [regenerateMessage] depends on where the response is
    cut, unlike the loop of [sendMessage]. *)
Lemma regen_chunks_cut_matters :
  ~ (forall (values : list string) (ts : RegenTurn * Store),
       regen_chunks values ts
       = regen_chunks [fold_right String.append "" values] ts).
Proof.
  intros H.
  specialize (H ["data: " ++ js "{'content':'Hel"; js "lo'}" ++ nl]
                (regen_open sample_clock 1 chat_store)).
  vm_compute in H. discriminate H.
Qed.

(** A two-byte character cut between its bytes: [sendMessage] decodes in
    streaming mode and shows the character, [regenerateMessage] decodes
    each chunk on its own. *)
Example cut_character :
  let part1 := "data: " ++ js "{'type':'content','content':'caf" ++ bytes [195] in
  let part2 := bytes [169] ++ js "'}" ++ nl in
  let contents s := map Message.content (messages s) in
  contents (sendMessage "Hi" sample_clock sample_clock
              (Body [part1; part2] None) sample_store)
  = ["Hi"; "caf" ++ bytes [195; 169]]
  /\ decode part1 ++ decode part2
     = "data: " ++ js "{'type':'content','content':'caf" ++ U_FFFD ++ U_FFFD
         ++ js "'}" ++ nl.
Proof. vm_compute. repeat split. Qed.

(** *** The canonical id in regenerateMessage (C3) *)

(** In [regenerateMessage] a pure id record sets the local [newMsgId] and
    leaves the store as it is. *)
Lemma regen_id_only_local (i : string) (t : RegenTurn) (s : Store) :
  i <> "" ->
  regen_event (IdAssigned i) (t, s) = (mkRegenTurn (newContent t) i, s).
Proof. intros Hi. destruct i as [|a i]; [congruence|reflexivity]. Qed.

(** C3.  The server names the message [srv-99] and then sends the delta
    [Hi].  After [sendMessage] the message carries [srv-99] and shows [Hi].
    After [regenerateMessage] the message still carries the provisional id
    [regen-...] and is empty: only the local [newMsgId] was set, so the
    delta was looked up under an id that no message carries. *)
Theorem regen_id_assigned_not_applied :
  let values := [frame "{'message_id':'srv-99'}";
                 frame "{'type':'content','content':'Hi'}"] in
  let view s := map (fun m => (Message.id m, Message.content m)) (messages s) in
  view (sendMessage "Hello" sample_clock sample_clock (Body values None)
          sample_store)
  = [("temp-1700000000000", "Hello"); ("srv-99", "Hi")]
  /\ view (regenerateMessage (Some "a1") sample_clock (Body values None)
             chat_store)
     = [("u1", "Tell me a story"); ("regen-1700000000000", "")].
Proof. vm_compute. repeat split. Qed.

(** ** Cancellation (C2) *)

Lemma agree_stop s : agree (stopStreaming s) s.
Proof. destruct s; reflexivity. Qed.

Lemma agree_fields s s' :
  agree s s' ->
  messages s = messages s' /\ sessionImages s = sessionImages s'
  /\ directorOutput s = directorOutput s'
  /\ paintDirectorOutput s = paintDirectorOutput s'.
Proof.
  destruct s, s'.
  unfold agree, stopStreaming, set_agentStage, set_isStreaming. cbn.
  intros H. injection H as -> -> -> -> -> -> -> ->. repeat split.
Qed.

Lemma stage_change_agree e s s' :
  agree s s' -> agree (stage_change e s) (stage_change e s').
Proof.
  intros H. agree_start. unfold stage_change.
  destruct (truthy (Event.stage e)); [|reflexivity].
  destruct (strict_eq (Event.stage e) "director");
    destruct (strict_eq (Event.stage e) "paint_director"); reflexivity.
Qed.

Lemma director_chunk_agree e s s' :
  agree s s' -> agree (director_chunk e s) (director_chunk e s').
Proof. intros H. agree_start. reflexivity. Qed.

Lemma outline_agree e s s' :
  agree s s' -> agree (outline e s) (outline e s').
Proof.
  intros H. agree_start. unfold outline.
  destruct (truthy (Event.content e)); reflexivity.
Qed.

Lemma paint_chunk_agree e s s' :
  agree s s' -> agree (paint_chunk e s) (paint_chunk e s').
Proof. intros H. agree_start. reflexivity. Qed.

Lemma image_prompt_agree e s s' :
  agree s s' -> agree (image_prompt e s) (image_prompt e s').
Proof.
  intros H. agree_start. unfold image_prompt.
  destruct (_ && _); reflexivity.
Qed.

Lemma content_delta_agree e t s s' :
  agree s s' ->
  fst (content_delta e (t, s)) = fst (content_delta e (t, s'))
  /\ agree (snd (content_delta e (t, s))) (snd (content_delta e (t, s'))).
Proof.
  intros H. agree_start. unfold content_delta.
  destruct (is_content_delta e); split; reflexivity.
Qed.

Lemma image_ready_agree e t s s' :
  agree s s' -> agree (image_ready e t s) (image_ready e t s').
Proof.
  intros H. agree_start. unfold image_ready.
  destruct (_ && _); reflexivity.
Qed.

Lemma post_processed_agree e t s s' :
  agree s s' -> agree (post_processed e t s) (post_processed e t s').
Proof.
  intros H. agree_start. unfold post_processed.
  destruct (_ && _); reflexivity.
Qed.

Lemma id_assigned_agree e t s s' :
  agree s s' ->
  fst (id_assigned e (t, s)) = fst (id_assigned e (t, s'))
  /\ agree (snd (id_assigned e (t, s))) (snd (id_assigned e (t, s'))).
Proof.
  intros H. agree_start. unfold id_assigned.
  destruct (is_id_assigned e t); split; reflexivity.
Qed.

Lemma done_event_agree e t s s' :
  agree s s' -> agree (done_event e t s) (done_event e t s').
Proof.
  intros H. agree_start. unfold done_event.
  destruct (truthyB (Event.done e)); [|reflexivity].
  destruct (truthy (Event.processed_content e)); reflexivity.
Qed.

Lemma failure_agree e t s s' :
  agree s s' -> agree (failure e t s) (failure e t s').
Proof.
  intros H. agree_start. unfold failure.
  destruct (truthy (Event.error e)); reflexivity.
Qed.

Lemma handle_event_agree e t s s' :
  agree s s' ->
  fst (handle_event e (t, s)) = fst (handle_event e (t, s'))
  /\ agree (snd (handle_event e (t, s))) (snd (handle_event e (t, s'))).
Proof.
  intros H. unfold handle_event.
  pose proof (stage_change_agree e _ _ H) as H0.
  destruct (is_director_chunk e);
    [split; [reflexivity|now apply director_chunk_agree]|].
  destruct (strict_eq (Event.type e) "outline");
    [split; [reflexivity|now apply outline_agree]|].
  destruct (is_paint_chunk e);
    [split; [reflexivity|now apply paint_chunk_agree]|].
  rewrite !handle_rest_eq. unfold before_done. cbn [fst snd].
  pose proof (image_prompt_agree e _ _ H0) as H1.
  destruct (content_delta_agree e t _ _ H1) as [E2 H2]. rewrite <- E2.
  set (t2 := fst (content_delta e (t, image_prompt e (stage_change e s)))).
  pose proof (image_ready_agree e t2 _ _ H2) as H3.
  pose proof (post_processed_agree e t2 _ _ H3) as H4.
  destruct (id_assigned_agree e t2 _ _ H4) as [E5 H5]. rewrite <- E5.
  split; [reflexivity|].
  apply failure_agree, done_event_agree, H5.
Qed.

Section Cancellation.
Context {TD : TextDecoder} {JR : JsonReader}.

Lemma send_line_agree line t s s' :
  agree s s' ->
  fst (send_line line (t, s)) = fst (send_line line (t, s'))
  /\ agree (snd (send_line line (t, s))) (snd (send_line line (t, s'))).
Proof.
  intros H. unfold send_line.
  destruct (startsWith "data: " line); [|now split].
  destruct (_ || _); [now split|].
  destruct (JSON_parse (trim (slice 6 line))); [|now split].
  now apply handle_event_agree.
Qed.

Lemma send_lines_agree lines t s s' :
  agree s s' ->
  fst (send_lines lines (t, s)) = fst (send_lines lines (t, s'))
  /\ agree (snd (send_lines lines (t, s))) (snd (send_lines lines (t, s'))).
Proof.
  revert t s s'. induction lines as [|l ls IH]; intros t s s' H.
  - now split.
  - cbn [send_lines fold_left]. fold (send_lines ls (send_line l (t, s))).
    fold (send_lines ls (send_line l (t, s'))).
    destruct (send_line_agree l t s s' H) as [E A].
    destruct (send_line l (t, s)) as [t1 s1].
    destruct (send_line l (t, s')) as [t1' s1']. cbn [fst snd] in *.
    subst t1'. now apply IH.
Qed.

Lemma send_chunk_agree value r t s s' :
  agree s s' ->
  fst (send_chunk value (r, (t, s))) = fst (send_chunk value (r, (t, s')))
  /\ fst (snd (send_chunk value (r, (t, s))))
     = fst (snd (send_chunk value (r, (t, s'))))
  /\ agree (snd (snd (send_chunk value (r, (t, s)))))
       (snd (snd (send_chunk value (r, (t, s'))))).
Proof.
  intros H. unfold send_chunk.
  destruct (decode_stream (decoder r) value) as [d txt]. cbn [fst snd].
  split; [reflexivity|]. now apply send_lines_agree.
Qed.

(** C2, amended.  [stopStreaming] sets [isStreaming] to false and
    [agentStage] to null and nothing else: the calls of [sendMessage] whose
    loop is running stay in flight with their locals, and starting a further
    turn leaves them in flight too.  A chunk that arrives for such a call
    after [stopStreaming] is handled as without it: the locals of the call,
    the messages, the images and the two stage outputs come out the same. *)
Theorem stop_does_not_abort (w : World) (k : nat) (value : string) :
  let w1 := step (step w Stop) (Deliver k value) in
  let w2 := step w (Deliver k value) in
  store (step w Stop) = stopStreaming (store w)
  /\ turns (step w Stop) = turns w
  /\ (forall content c1 c2 j,
         j < List.length (turns w) ->
         nth_error (turns (step w (Start content c1 c2))) j
         = nth_error (turns w) j)
  /\ turns w1 = turns w2
  /\ messages (store w1) = messages (store w2)
  /\ sessionImages (store w1) = sessionImages (store w2)
  /\ directorOutput (store w1) = directorOutput (store w2)
  /\ paintDirectorOutput (store w1) = paintDirectorOutput (store w2).
Proof.
  intros w1 w2. split; [reflexivity|]. split; [reflexivity|]. split.
  { intros content c1 c2 j Hj. cbn [step].
    destruct (send_begin content c1 c2 (store w)) as [t s]. cbn [turns].
    now apply nth_error_app1. }
  subst w1 w2. cbn [step turns store].
  destruct (nth_error (turns w) k) as [[[r t]|]|]; try (repeat split; fail).
  destruct (send_chunk_agree value r t _ _ (agree_stop (store w)))
    as [E1 [E2 A]].
  destruct (send_chunk value (r, (t, stopStreaming (store w))))
    as [r1 [t1 s1]].
  destruct (send_chunk value (r, (t, store w))) as [r2 [t2 s2]].
  cbn [fst snd turns store] in *. subst r2 t2. split; [reflexivity|].
  now apply agree_fields.
Qed.

End Cancellation.

(** C2 as stated fails: a turn receives [Once], then the user stops, and
    then also sends a second message; in both cases the chunk [ upon] that
    arrives next is still written to the message of the first turn. *)
Lemma cancelled_turn_still_writes : ~ stop_is_final /\ ~ next_turn_is_final.
Proof.
  split.
  - intros H.
    specialize (H [Start "Tell me a story" sample_clock sample_clock;
                   Deliver 0 (frame "{'type':'content','content':'Once'}")]
                  0 (frame "{'type':'content','content':' upon'}")).
    vm_compute in H. discriminate H.
  - intros H.
    specialize (H [Start "Tell me a story" sample_clock sample_clock;
                   Deliver 0 (frame "{'type':'content','content':'Once'}");
                   Stop]
                  "Another one" (mkClock "1700000009999" "2023-11-14T22:13:29.999Z")
                  (mkClock "1700000009999" "2023-11-14T22:13:29.999Z")
                  0 (frame "{'type':'content','content':' upon'}")).
    vm_compute in H. specialize (H (le_n 1)). discriminate H.
Qed.

(** * Further properties of the store *)

(** ** What the handlers keep of every message *)

Lemma keeps_refl m : keeps m m.
Proof. unfold keeps. auto. Qed.

Lemma keeps_trans a b c : keeps a b -> keeps b c -> keeps a c.
Proof.
  unfold keeps. intros [R1 [T1 [E1 I1]]] [R2 [T2 [E2 I2]]].
  repeat split; try congruence; auto.
Qed.

Lemma Forall2_keeps_refl ms : Forall2 keeps ms ms.
Proof. induction ms; constructor; auto using keeps_refl. Qed.

Lemma Forall2_keeps_trans a b c :
  Forall2 keeps a b -> Forall2 keeps b c -> Forall2 keeps a c.
Proof.
  intros H. revert c. induction H as [|x y l l' Hxy _ IH]; intros c Hc.
  - inversion Hc. constructor.
  - inversion Hc; subst. constructor; eauto using keeps_trans.
Qed.

Lemma update_id_keeps i f ms :
  (forall m, keeps m (f m)) -> Forall2 keeps ms (update_id i f ms).
Proof.
  intros Hf. unfold update_id. induction ms as [|m ms IH]; cbn [map].
  - constructor.
  - constructor; auto.
    destruct (String.eqb (Message.id m) i); auto using keeps_refl.
Qed.

Lemma keeps_with_content c m : keeps m (Message.with_content c m).
Proof. unfold keeps. cbn. auto. Qed.

Lemma keeps_with_id i m : keeps m (Message.with_id i m).
Proof. unfold keeps. cbn. auto. Qed.

Lemma keeps_with_image_url u m : keeps m (Message.with_image_url u m).
Proof. unfold keeps. cbn. repeat split; auto. discriminate. Qed.

Lemma keeps_with_error c m : keeps m (Message.with_error c m).
Proof. unfold keeps. cbn. auto. Qed.

Lemma content_delta_keeps e ts :
  Forall2 keeps (messages (snd ts)) (messages (snd (content_delta e ts))).
Proof.
  destruct ts as [t s]. unfold content_delta.
  destruct (is_content_delta e); cbn [snd messages set_messages].
  - apply update_id_keeps, keeps_with_content.
  - apply Forall2_keeps_refl.
Qed.

Lemma image_ready_keeps e t s :
  Forall2 keeps (messages s) (messages (image_ready e t s)).
Proof.
  unfold image_ready. destruct (_ && _); cbn [messages set_messages].
  - apply update_id_keeps, keeps_with_image_url.
  - apply Forall2_keeps_refl.
Qed.

Lemma post_processed_keeps e t s :
  Forall2 keeps (messages s) (messages (post_processed e t s)).
Proof.
  unfold post_processed. destruct (_ && _); cbn [messages set_messages].
  - apply update_id_keeps, keeps_with_content.
  - apply Forall2_keeps_refl.
Qed.

Lemma id_assigned_keeps e ts :
  Forall2 keeps (messages (snd ts)) (messages (snd (id_assigned e ts))).
Proof.
  destruct ts as [t s]. unfold id_assigned.
  destruct (is_id_assigned e t); cbn [snd messages set_messages].
  - apply update_id_keeps, keeps_with_id.
  - apply Forall2_keeps_refl.
Qed.

Lemma done_event_keeps e t s :
  Forall2 keeps (messages s) (messages (done_event e t s)).
Proof.
  unfold done_event. destruct (truthyB (Event.done e));
    [|apply Forall2_keeps_refl].
  destruct (truthy (Event.processed_content e));
    cbn [messages set_messages set_agentStage set_isStreaming].
  - apply update_id_keeps, keeps_with_content.
  - apply Forall2_keeps_refl.
Qed.

Lemma failure_keeps e t s :
  Forall2 keeps (messages s) (messages (failure e t s)).
Proof.
  unfold failure. destruct (truthy (Event.error e));
    cbn [messages set_messages set_agentStage set_isStreaming].
  - apply update_id_keeps, keeps_with_error.
  - apply Forall2_keeps_refl.
Qed.

Lemma handle_rest_keeps e ts :
  Forall2 keeps (messages (snd ts)) (messages (snd (handle_rest e ts))).
Proof.
  rewrite handle_rest_eq. cbn [snd]. unfold before_done.
  eapply Forall2_keeps_trans; [|apply failure_keeps].
  eapply Forall2_keeps_trans; [|apply done_event_keeps].
  eapply Forall2_keeps_trans; [|apply id_assigned_keeps]. cbn [snd].
  eapply Forall2_keeps_trans; [|apply post_processed_keeps].
  eapply Forall2_keeps_trans; [|apply image_ready_keeps].
  eapply Forall2_keeps_trans; [|apply content_delta_keeps]. cbn [snd].
  rewrite image_prompt_messages. apply Forall2_keeps_refl.
Qed.

Lemma handle_event_keeps e ts :
  Forall2 keeps (messages (snd ts)) (messages (snd (handle_event e ts))).
Proof.
  destruct ts as [t s]. unfold handle_event.
  destruct (is_director_chunk e).
  { cbn [snd]. unfold director_chunk. cbn [messages set_directorOutput].
    rewrite stage_change_messages. apply Forall2_keeps_refl. }
  destruct (strict_eq (Event.type e) "outline").
  { cbn [snd]. unfold outline. destruct (truthy (Event.content e));
      cbn [messages set_directorOutput]; rewrite stage_change_messages;
      apply Forall2_keeps_refl. }
  destruct (is_paint_chunk e).
  { cbn [snd]. unfold paint_chunk. cbn [messages set_paintDirectorOutput].
    rewrite stage_change_messages. apply Forall2_keeps_refl. }
  eapply Forall2_keeps_trans; [|apply handle_rest_keeps]. cbn [snd].
  rewrite stage_change_messages. apply Forall2_keeps_refl.
Qed.

(** What [Forall2 keeps] says in terms of the two lists. *)
Lemma Forall2_keeps_facts ms ms' :
  Forall2 keeps ms ms' ->
  List.length ms' = List.length ms
  /\ map Message.role ms' = map Message.role ms
  /\ map Message.timestamp ms' = map Message.timestamp ms
  /\ (forall n m, nth_error ms n = Some m ->
        exists m', nth_error ms' n = Some m'
                   /\ (Message.isError m = true -> Message.isError m' = true)
                   /\ (Message.image_url m <> None
                       -> Message.image_url m' <> None)).
Proof.
  induction 1 as [|x y l l' [R [T [E I]]] _ [IL [IR [IT IN]]]].
  - repeat split; auto. intros [|n] m H; discriminate H.
  - cbn [List.length map]. repeat split; try congruence.
    intros [|n] m H; cbn [nth_error] in *.
    + injection H as <-. exists y. auto.
    + now apply IN.
Qed.

Section Invariants.
Context {TD : TextDecoder} {JR : JsonReader}.

(** A relation between the locals and store before and after that every
    record respects is respected by the whole read loop of [sendMessage],
    for every decoder, every parser and every cut into chunks. *)
Lemma send_chunks_lift (R : Turn * Store -> Turn * Store -> Prop) :
  (forall x, R x x) ->
  (forall x y z, R x y -> R y z -> R x z) ->
  (forall e x, R x (handle_event e x)) ->
  forall values r ts, R ts (snd (send_chunks values (r, ts))).
Proof.
  intros Hrefl Htrans Hstep.
  assert (Hline : forall l x, R x (send_line l x)).
  { intros l x. unfold send_line.
    destruct (startsWith "data: " l); auto.
    destruct (_ || _); auto.
    destruct (JSON_parse _); auto. }
  assert (Hlines : forall ls x, R x (send_lines ls x)).
  { induction ls as [|l ls IH]; intros x; cbn [send_lines fold_left]; auto.
    eapply Htrans; [apply (Hline l)|]. apply IH. }
  induction values as [|v vs IH]; intros r ts;
    cbn [send_chunks fold_left snd]; auto.
  fold (send_chunks vs (send_chunk v (r, ts))).
  destruct (send_chunk v (r, ts)) as [r1 ts1] eqn:E.
  eapply Htrans; [|apply IH].
  assert (E1 : ts1 = snd (send_chunk v (r, ts))) by now rewrite E.
  rewrite E1. unfold send_chunk.
  destruct (decode_stream (decoder r) v). cbn [snd]. apply Hlines.
Qed.

Lemma send_chunks_keeps values r ts :
  Forall2 keeps (messages (snd ts))
    (messages (snd (snd (send_chunks values (r, ts))))).
Proof.
  apply (send_chunks_lift
           (fun x y => Forall2 keeps (messages (snd x)) (messages (snd y)))).
  - intros x. apply Forall2_keeps_refl.
  - intros x y z. apply Forall2_keeps_trans.
  - intros e x. apply handle_event_keeps.
Qed.

Lemma send_chunks_tracked values r ts :
  tracked ts -> tracked (snd (send_chunks values (r, ts))).
Proof.
  apply (send_chunks_lift (fun x y => tracked x -> tracked y)); auto.
  intros e x. apply handle_event_tracked.
Qed.

(** The read loop of [sendMessage] never adds, removes or reorders
    messages, whatever arrives: the list keeps its length, every message
    keeps its role and time stamp, an error flag that is set stays set and
    an attached image stays attached. *)
Theorem send_loop_keeps_messages (values : list string) (r : Reader)
  (ts : Turn * Store) :
  let ms := messages (snd ts) in
  let ms' := messages (snd (snd (send_chunks values (r, ts)))) in
  List.length ms' = List.length ms
  /\ map Message.role ms' = map Message.role ms
  /\ map Message.timestamp ms' = map Message.timestamp ms
  /\ (forall n m, nth_error ms n = Some m ->
        exists m', nth_error ms' n = Some m'
                   /\ (Message.isError m = true -> Message.isError m' = true)
                   /\ (Message.image_url m <> None
                       -> Message.image_url m' <> None)).
Proof. apply Forall2_keeps_facts, send_chunks_keeps. Qed.

End Invariants.

(** ** The whole of sendMessage *)

Section WholeSend.
Context {TD : TextDecoder} {JR : JsonReader}.


Lemma send_catch_messages message ts :
  messages (snd (send_end (send_catch message ts)))
  = update_id (assistantMsgId (fst ts))
      (Message.with_error (error_text message)) (messages (snd ts)).
Proof. destruct ts as [t s]. reflexivity. Qed.


(** When the request is refused, or a read of the body throws, the message
    that the turn tracks at that moment is flagged and shows the text of the
    exception behind the warning prefix; after a refused request that
    message is the assistant message the turn began with. *)
Theorem transport_failure_shows_error (content : string) (c1 c2 : Clock)
  (resp : Response) (message : string) (s : Store) :
  thrown resp = Some message ->
  let s' := sendMessage content c1 c2 resp s in
  exists i,
    (exists m, In m (messages s') /\ Message.id m = i)
    /\ (forall m, In m (messages s') -> Message.id m = i ->
          Message.isError m = true
          /\ Message.content m = error_text message)
    /\ (resp = Refused message -> i = "assistant-" ++ now c2).
Proof.
  intros Hth s'. subst s'. unfold sendMessage.
  set (ts0 := send_begin content c1 c2 s).
  assert (T0 : tracked ts0) by apply send_begin_tracked.
  assert (Hcatch : forall ts, tracked ts ->
    (exists m, In m (messages (snd (send_end (send_catch message ts))))
               /\ Message.id m = assistantMsgId (fst ts))
    /\ (forall m, In m (messages (snd (send_end (send_catch message ts)))) ->
          Message.id m = assistantMsgId (fst ts) ->
          Message.isError m = true
          /\ Message.content m = error_text message)).
  { intros ts Ht. rewrite send_catch_messages. split.
    - unfold tracked in Ht. apply in_map_iff in Ht.
      destruct Ht as [m [Hid Hin]].
      exists (Message.with_error (error_text message) m). split; auto.
      unfold update_id. apply in_map_iff. exists m. split; auto.
      apply String.eqb_eq in Hid. now rewrite Hid.
    - intros m Hin Hid. apply update_id_hit in Hin; auto.
      destruct Hin as [m0 [_ [_ Hm]]]. now subst m. }
  destruct resp as [msg|values broken]; cbn [thrown] in Hth.
  - injection Hth as ->. exists (assistantMsgId (fst ts0)).
    destruct (Hcatch ts0 T0) as [H1 H2]. split; [exact H1|].
    split; [exact H2|]. intros _. reflexivity.
  - subst broken.
    pose proof (send_chunks_tracked values new_reader ts0 T0) as T1.
    set (ts1 := snd (send_chunks values (new_reader, ts0))) in *.
    exists (assistantMsgId (fst ts1)).
    destruct (Hcatch ts1 T1) as [H1 H2]. split; [exact H1|].
    split; [exact H2|]. discriminate.
Qed.

End WholeSend.

(** A refused request: the assistant message shows the status line. *)
Lemma transport_failure_shows_error_witness :
  let s' := sendMessage "Hi" sample_clock sample_clock
              (Refused "Request failed: 500 Internal Server Error")
              sample_store in
  exists i,
    (exists m, In m (messages s') /\ Message.id m = i)
    /\ (forall m, In m (messages s') -> Message.id m = i ->
          Message.isError m = true
          /\ Message.content m
             = error_text "Request failed: 500 Internal Server Error")
    /\ (Refused "Request failed: 500 Internal Server Error"
        = Refused "Request failed: 500 Internal Server Error" ->
        i = "assistant-" ++ now sample_clock).
Proof.
  apply (transport_failure_shows_error "Hi" sample_clock sample_clock
           (Refused "Request failed: 500 Internal Server Error")
           "Request failed: 500 Internal Server Error" sample_store).
  reflexivity.
Defined.

(** ** Deltas in sendMessage *)

Lemma update_id_nth i f ms n :
  nth_error (update_id i f ms) n
  = option_map (fun m => if String.eqb (Message.id m) i then f m else m)
      (nth_error ms n).
Proof. unfold update_id. apply nth_error_map. Qed.

(** A content record with an empty content does nothing. *)
Lemma handle_empty_delta (ts : Turn * Store) :
  handle_event (ContentDelta "") ts = ts.
Proof. destruct ts as [[ac i] s]. destruct s. reflexivity. Qed.

Lemma with_content_twice c c' m :
  Message.with_content c (Message.with_content c' m) = Message.with_content c m.
Proof. reflexivity. Qed.

Lemma deltas_on_tracked (ds : list string) :
  forall (t : Turn) (s : Store) (k : nat) (m : Message),
    nth_error (messages s) k = Some m ->
    Message.id m = assistantMsgId t ->
    Message.content m = assistantContent t ->
    let ts := handle_events (map ContentDelta ds) (t, s) in
    nth_error (messages (snd ts)) k
    = Some (Message.with_content
              (assistantContent t ++ fold_right String.append "" ds) m)
    /\ assistantMsgId (fst ts) = assistantMsgId t
    /\ assistantContent (fst ts)
       = assistantContent t ++ fold_right String.append "" ds.
Proof.
  induction ds as [|d ds IH]; intros t s k m Hk Hid Hc ts; subst ts.
  - cbn [map handle_events fold_left fold_right fst snd].
    rewrite append_nil_r. repeat split; auto.
    rewrite Hk. f_equal. destruct m. cbn in *. now subst.
  - cbn [map handle_events fold_left fold_right].
    fold (handle_events (map ContentDelta ds)
            (handle_event (ContentDelta d) (t, s))).
    destruct (string_dec d "") as [->|Hd].
    + rewrite handle_empty_delta. cbn [String.append]. now apply IH.
    + rewrite handle_content_delta by assumption.
      set (c := assistantContent t ++ d).
      destruct (IH (mkTurn c (assistantMsgId t))
                  (set_messages
                     (update_id (assistantMsgId t) (Message.with_content c)
                        (messages s)) s)
                  k (Message.with_content c m)) as [H1 [H2 H3]].
      * cbn [messages set_messages]. rewrite update_id_nth, Hk.
        cbn [option_map]. apply String.eqb_eq in Hid. now rewrite Hid.
      * exact Hid.
      * reflexivity.
      * cbn [assistantContent assistantMsgId] in *. subst c.
        rewrite with_content_twice, append_assoc in H1.
        rewrite append_assoc in H3. auto.
Qed.

(** After [sendMessage] has begun, content deltas alone (empty ones
    included) leave the assistant message at its place, right after the
    user message, with the deltas concatenated in arrival order as its
    content and everything else as it began. *)
Theorem deltas_concatenate (content : string) (c1 c2 : Clock) (s : Store)
  (ds : list string) :
  let ts := handle_events (map ContentDelta ds)
              (send_begin content c1 c2 s) in
  nth_error (messages (snd ts)) (List.length (messages s) + 1)
  = Some (Message.mk ("assistant-" ++ now c2) assistant
            (fold_right String.append "" ds) (iso c2) None false)
  /\ nth_error (messages (snd ts)) (List.length (messages s))
     = Some (Message.mk ("temp-" ++ now c1) user content (iso c1) None false)
  /\ assistantContent (fst ts) = fold_right String.append "" ds.
Proof.
  intros ts. subst ts. unfold send_begin.
  cbn [messages set_messages set_isStreaming assistantMsgId].
  set (a := Message.mk ("assistant-" ++ now c2) assistant "" (iso c2) None
              false).
  set (u := Message.mk ("temp-" ++ now c1) user content (iso c1) None false).
  set (s0 := set_messages _ _).
  assert (Ha : nth_error (messages s0) (List.length (messages s) + 1) = Some a).
  { subst s0. cbn [messages set_messages].
    rewrite nth_error_app2 by (rewrite length_app; cbn; lia).
    rewrite length_app. cbn [List.length].
    now replace (_ - _) with 0 by lia. }
  assert (Hu : nth_error (messages s0) (List.length (messages s)) = Some u).
  { subst s0. cbn [messages set_messages].
    rewrite nth_error_app1 by (rewrite length_app; cbn; lia).
    rewrite nth_error_app2 by lia. now rewrite Nat.sub_diag. }
  destruct (deltas_on_tracked ds (mkTurn "" ("assistant-" ++ now c2)) s0 _ a
              Ha eq_refl eq_refl) as [H1 [H2 H3]].
  split; [exact H1|]. split; [|exact H3].
  (* the user message: its id differs from the tracked one *)
  clear H1 H3 Ha.
  assert (Hgen : forall ds t s1,
            assistantMsgId t = "assistant-" ++ now c2 ->
            nth_error (messages s1) (List.length (messages s)) = Some u ->
            nth_error
              (messages (snd (handle_events (map ContentDelta ds) (t, s1))))
              (List.length (messages s)) = Some u).
  { clear. induction ds as [|d ds IH]; intros t s1 Ht Hn; auto.
    cbn [map handle_events fold_left].
    fold (handle_events (map ContentDelta ds)
            (handle_event (ContentDelta d) (t, s1))).
    destruct (string_dec d "") as [->|Hd].
    - rewrite handle_empty_delta. now apply IH.
    - rewrite handle_content_delta by assumption. apply IH; auto.
      cbn [messages set_messages]. rewrite update_id_nth, Hn, Ht.
      reflexivity. }
  now apply Hgen.
Qed.

(** ** A failure does not end the loop *)

Lemma failure_flags_tracked (e : Event) (ts : Turn * Store) :
  falls_through e = true ->
  truthy (Event.error e) = true ->
  isStreaming (snd (handle_event e ts)) = false
  /\ forall m, In m (messages (snd (handle_event e ts))) ->
               Message.id m = assistantMsgId (fst (handle_event e ts)) ->
               Message.isError m = true.
Proof.
  intros Hft He. rewrite (handle_event_falls _ _ Hft), handle_rest_eq.
  cbn [fst snd]. unfold failure. rewrite He.
  cbn [messages isStreaming set_agentStage set_isStreaming set_messages].
  split; auto. intros m Hin Hid. apply update_id_hit in Hin; auto.
  destruct Hin as [m0 [_ [_ Hm]]]. now subst m.
Qed.

(** The error branch has no [break]: a content delta that arrives after a
    failure record is still applied.  The message then shows all deltas
    received so far instead of the error text, still flagged as an error,
    and the store stays not streaming. *)
Theorem delta_after_failure_overwrites_error
  (content : string) (c1 c2 : Clock) (s : Store)
  (es : list Event) (e : Event) (d : string) :
  falls_through e = true ->
  truthy (Event.error e) = true ->
  d <> "" ->
  let ts := handle_events ((es ++ [e]) ++ [ContentDelta d])
              (send_begin content c1 c2 s) in
  isStreaming (snd ts) = false
  /\ (exists m, In m (messages (snd ts))
                /\ Message.id m = assistantMsgId (fst ts))
  /\ (forall m, In m (messages (snd ts)) ->
                Message.id m = assistantMsgId (fst ts) ->
                Message.isError m = true
                /\ Message.content m
                   = fold_right String.append "" (map delta_of (es ++ [e]))
                       ++ d).
Proof.
  intros Hft He Hd ts.
  assert (Htr : tracked ts)
    by (subst ts; apply handle_events_tracked, send_begin_tracked).
  subst ts. rewrite handle_events_app in *.
  set (ts1 := handle_events (es ++ [e]) (send_begin content c1 c2 s)) in *.
  assert (Hc : assistantContent (fst ts1)
               = fold_right String.append "" (map delta_of (es ++ [e])))
    by (subst ts1; now rewrite handle_events_content).
  assert (Hf : isStreaming (snd ts1) = false
               /\ forall m, In m (messages (snd ts1)) ->
                            Message.id m = assistantMsgId (fst ts1) ->
                            Message.isError m = true).
  { subst ts1. rewrite handle_events_app.
    apply (failure_flags_tracked e _ Hft He). }
  destruct Hf as [Hs Hf]. destruct ts1 as [t1 s1]. cbn [fst snd] in *.
  change (handle_events [ContentDelta d] (t1, s1))
    with (handle_event (ContentDelta d) (t1, s1)) in *.
  rewrite handle_content_delta in * by assumption.
  cbn [fst snd messages isStreaming set_messages assistantMsgId] in *.
  split; [exact Hs|]. split.
  - unfold tracked in Htr. cbn [fst snd messages set_messages assistantMsgId] in Htr.
    apply in_map_iff in Htr. destruct Htr as [m [Hid Hin]]. now exists m.
  - intros m Hin Hid. apply update_id_hit in Hin; auto.
    destruct Hin as [m0 [Hin0 [Hid0 Hm]]]. subst m.
    cbn [Message.isError Message.content Message.with_content].
    split; [now apply Hf|now rewrite Hc].
Qed.

Lemma delta_after_failure_overwrites_error_witness :
  let ts := handle_events
              (([ContentDelta "Once"] ++ [Failure "boom"])
                 ++ [ContentDelta " upon"])
              (send_begin "Tell me a story" sample_clock sample_clock
                 sample_store) in
  isStreaming (snd ts) = false
  /\ (exists m, In m (messages (snd ts))
                /\ Message.id m = assistantMsgId (fst ts))
  /\ (forall m, In m (messages (snd ts)) ->
                Message.id m = assistantMsgId (fst ts) ->
                Message.isError m = true
                /\ Message.content m = "Once upon").
Proof.
  apply (delta_after_failure_overwrites_error "Tell me a story" sample_clock
           sample_clock sample_store [ContentDelta "Once"] (Failure "boom")
           " upon"); try reflexivity.
  discriminate.
Defined.

(** ** The gallery during a turn *)


Section Gallery.
Context {TD : TextDecoder} {JR : JsonReader}.


End Gallery.

(** ** The image of a message *)

Lemma update_id_all (i j : string) (f : Message -> Message)
  (P : Message -> Prop) (ms : list Message) :
  (forall m, Message.id (f m) = Message.id m) ->
  (forall m, P m -> P (f m)) ->
  (forall m, In m ms -> Message.id m = i -> P m) ->
  forall m, In m (update_id j f ms) -> Message.id m = i -> P m.
Proof.
  intros Hid Hf H m Hin Hm. unfold update_id in Hin.
  apply in_map_iff in Hin. destruct Hin as [m0 [Heq Hin0]].
  destruct (String.eqb (Message.id m0) j); subst m.
  - apply Hf, H; auto. now rewrite <- Hid.
  - now apply H.
Qed.

(** A record of type [image] with a url, which does not rename the message,
    attaches the url to every message that carries the tracked id and puts
    an entry with the same url and id at the end of the gallery. *)
Theorem image_ready_attaches (e : Event) (t : Turn) (s : Store) :
  strict_eq (Event.type e) "image" = true ->
  truthy (Event.url e) = true ->
  is_id_assigned e t = false ->
  let r := handle_event e (t, s) in
  assistantMsgId (fst r) = assistantMsgId t
  /\ (forall m, In m (messages (snd r)) ->
                Message.id m = assistantMsgId t ->
                Message.image_url m = Some (text (Event.url e)))
  /\ sessionImages (snd r)
     = (sessionImages s
          ++ [Image.mk (text (Event.url e)) (assistantMsgId t)])%list.
Proof.
  intros Hty Hu Hid r. subst r.
  split; [now apply handle_event_same_id|].
  split; [|now apply image_ready_appends].
  rewrite (handle_event_falls _ _ (image_falls_through e Hty)).
  rewrite handle_rest_eq. cbn [fst snd].
  set (P := fun m => Message.image_url m = Some (text (Event.url e))).
  assert (Hwc : forall c m, P m -> P (Message.with_content c m)) by auto.
  assert (Hwe : forall c m, P m -> P (Message.with_error c m)) by auto.
  unfold before_done. cbn [fst snd].
  set (ts2 := content_delta e (t, image_prompt e (stage_change e s))).
  assert (H2 : assistantMsgId (fst ts2) = assistantMsgId t)
    by (subst ts2; apply content_delta_id).
  assert (Hid2 : is_id_assigned e (fst ts2) = false)
    by (unfold is_id_assigned in *; now rewrite H2).
  unfold id_assigned. rewrite Hid2. cbn [fst snd].
  (* after the image branch every tracked message has the url *)
  assert (H3 : forall m, In m (messages (image_ready e (fst ts2) (snd ts2))) ->
                         Message.id m = assistantMsgId t -> P m).
  { unfold image_ready. rewrite Hty, Hu. cbn [andb messages set_messages].
    intros m Hin Hm. rewrite H2 in Hin. apply update_id_hit in Hin; auto.
    destruct Hin as [m0 [_ [_ Hm0]]]. now subst m. }
  assert (H4 : forall m, In m (messages (post_processed e (fst ts2)
                                          (image_ready e (fst ts2) (snd ts2)))) ->
                         Message.id m = assistantMsgId t -> P m).
  { unfold post_processed. destruct (_ && _); auto.
    cbn [messages set_messages]. now apply update_id_all. }
  set (s4 := post_processed e (fst ts2) (image_ready e (fst ts2) (snd ts2))) in *.
  assert (H5 : forall m, In m (messages (done_event e (fst ts2) s4)) ->
                         Message.id m = assistantMsgId t -> P m).
  { unfold done_event. destruct (truthyB (Event.done e)); auto.
    destruct (truthy (Event.processed_content e));
      cbn [messages set_messages set_agentStage set_isStreaming]; auto.
    now apply update_id_all. }
  unfold failure. destruct (truthy (Event.error e)); auto.
  cbn [messages set_messages set_agentStage set_isStreaming].
  now apply update_id_all.
Qed.

Lemma image_ready_attaches_witness :
  let t := mkTurn "" "assistant-1700000000000" in
  let s := snd (send_begin "Draw it" sample_clock sample_clock sample_store) in
  let r := handle_event (ImageReady "/images/7.png") (t, s) in
  assistantMsgId (fst r) = "assistant-1700000000000"
  /\ (forall m, In m (messages (snd r)) ->
                Message.id m = "assistant-1700000000000" ->
                Message.image_url m = Some "/images/7.png")
  /\ sessionImages (snd r)
     = [Image.mk "/images/7.png" "assistant-1700000000000"].
Proof.
  apply (image_ready_attaches (ImageReady "/images/7.png")
           (mkTurn "" "assistant-1700000000000")
           (snd (send_begin "Draw it" sample_clock sample_clock sample_store)));
    reflexivity.
Defined.

(** ** The stage side channels *)

Lemma handle_director_chunk (d : string) (ts : Turn * Store) :
  handle_event (DirectorChunk d) ts
  = (fst ts, set_directorOutput (directorOutput (snd ts) ++ d) (snd ts)).
Proof.
  destruct ts as [[ac i] s]. destruct s. destruct d as [|a d].
  - cbn. now rewrite append_nil_r.
  - reflexivity.
Qed.

Lemma handle_paint_chunk (d : string) (ts : Turn * Store) :
  handle_event (PaintChunk d) ts
  = (fst ts,
     set_paintDirectorOutput (paintDirectorOutput (snd ts) ++ d) (snd ts)).
Proof.
  destruct ts as [[ac i] s]. destruct s. destruct d as [|a d].
  - cbn. now rewrite append_nil_r.
  - reflexivity.
Qed.

Lemma director_chunks (ds : list string) (t : Turn) (s : Store) :
  handle_events (map DirectorChunk ds) (t, s)
  = (t, set_directorOutput
          (directorOutput s ++ fold_right String.append "" ds) s).
Proof.
  revert s. induction ds as [|d ds IH]; intros s.
  - cbn. rewrite append_nil_r. now destruct s.
  - cbn [map handle_events fold_left fold_right].
    fold (handle_events (map DirectorChunk ds)
            (handle_event (DirectorChunk d) (t, s))).
    rewrite handle_director_chunk. cbn [fst snd]. rewrite IH.
    destruct s. cbn. now rewrite append_assoc.
Qed.

Lemma paint_chunks (ds : list string) (t : Turn) (s : Store) :
  handle_events (map PaintChunk ds) (t, s)
  = (t, set_paintDirectorOutput
          (paintDirectorOutput s ++ fold_right String.append "" ds) s).
Proof.
  revert s. induction ds as [|d ds IH]; intros s.
  - cbn. rewrite append_nil_r. now destruct s.
  - cbn [map handle_events fold_left fold_right].
    fold (handle_events (map PaintChunk ds)
            (handle_event (PaintChunk d) (t, s))).
    rewrite handle_paint_chunk. cbn [fst snd]. rewrite IH.
    destruct s. cbn. now rewrite append_assoc.
Qed.

(** The director side channel: the stage record [director] opens the popup
    and empties the outline, whatever it held; the chunks that follow are
    concatenated in arrival order; an outline record then replaces the
    whole.  The paint director channel does the same with its stage record,
    its chunks and the prompt of an image record.  Messages and locals of
    the turn are not touched. *)
Theorem stage_outputs (ds : list string) (final : string) (t : Turn)
  (s : Store) :
  final <> "" ->
  let r := handle_events (StageStart "director" :: map DirectorChunk ds)
             (t, s) in
  let p := handle_events (StageStart "paint_director" :: map PaintChunk ds)
             (t, s) in
  (fst r = t /\ messages (snd r) = messages s
   /\ showDirectorPopup (snd r) = true
   /\ agentStage (snd r) = Some "director"
   /\ directorOutput (snd r) = fold_right String.append "" ds
   /\ directorOutput (snd (handle_event (Outline final) r)) = final
   /\ messages (snd (handle_event (Outline final) r)) = messages s)
  /\ (fst p = t /\ messages (snd p) = messages s
      /\ showPaintDirectorPopup (snd p) = true
      /\ agentStage (snd p) = Some "paint_director"
      /\ paintDirectorOutput (snd p) = fold_right String.append "" ds
      /\ paintDirectorOutput (snd (handle_event (ImagePrompt final) p))
         = final
      /\ messages (snd (handle_event (ImagePrompt final) p)) = messages s).
Proof.
  intros Hf r p. subst r p. destruct final as [|a final]; [congruence|].
  cbn [handle_events fold_left].
  fold (handle_events (map DirectorChunk ds)
          (handle_event (StageStart "director") (t, s))).
  fold (handle_events (map PaintChunk ds)
          (handle_event (StageStart "paint_director") (t, s))).
  assert (E1 : handle_event (StageStart "director") (t, s)
               = (t, set_directorOutput ""
                       (set_showDirectorPopup true
                          (set_agentStage (Some "director") s))))
    by (destruct s, t; reflexivity).
  assert (E2 : handle_event (StageStart "paint_director") (t, s)
               = (t, set_paintDirectorOutput ""
                       (set_showPaintDirectorPopup true
                          (set_agentStage (Some "paint_director") s))))
    by (destruct s, t; reflexivity).
  rewrite E1, E2, director_chunks, paint_chunks.
  destruct s, t. repeat split.
Qed.

Lemma stage_outputs_witness :
  let t := mkTurn "" "assistant-1" in
  let s := set_directorOutput "an older outline" sample_store in
  let r := handle_events
             (StageStart "director" :: map DirectorChunk ["Act I. "; "Act II."])
             (t, s) in
  directorOutput (snd r) = "Act I. Act II."
  /\ directorOutput (snd (handle_event (Outline "Acts I-II") r)) = "Acts I-II".
Proof.
  intros t s r.
  destruct (stage_outputs ["Act I. "; "Act II."] "Acts I-II" t s)
    as [[_ [_ [_ [_ [H5 [H6 _]]]]]] _]; [discriminate|].
  split; [exact H5|exact H6].
Defined.

(** ** Messages of other ids *)

(** One record changes only messages that carry the id the turn tracks
    before the record or the id it tracks after it: every other message
    stays as it is, at its place. *)
Theorem other_messages_untouched (e : Event) (t : Turn) (s : Store)
  (n : nat) (m : Message) :
  nth_error (messages s) n = Some m ->
  Message.id m <> assistantMsgId t ->
  Message.id m <> assistantMsgId (fst (handle_event e (t, s))) ->
  nth_error (messages (snd (handle_event e (t, s)))) n = Some m.
Proof.
  intros Hn H1 H2.
  assert (Hmiss : forall i f ms, nth_error ms n = Some m ->
            Message.id m <> i -> nth_error (update_id i f ms) n = Some m).
  { intros i f ms Hm Hi. rewrite update_id_nth, Hm. cbn [option_map].
    apply String.eqb_neq in Hi. now rewrite Hi. }
  revert H2. unfold handle_event.
  destruct (is_director_chunk e).
  { intros _. cbn [snd]. unfold director_chunk.
    cbn [messages set_directorOutput]. now rewrite stage_change_messages. }
  destruct (strict_eq (Event.type e) "outline").
  { intros _. cbn [snd]. unfold outline. destruct (truthy (Event.content e));
      cbn [messages set_directorOutput]; now rewrite stage_change_messages. }
  destruct (is_paint_chunk e).
  { intros _. cbn [snd]. unfold paint_chunk.
    cbn [messages set_paintDirectorOutput]. now rewrite stage_change_messages. }
  rewrite handle_rest_eq. cbn [fst snd]. unfold before_done. cbn [fst snd].
  set (ts2 := content_delta e (t, image_prompt e (stage_change e s))).
  assert (E2 : assistantMsgId (fst ts2) = assistantMsgId t)
    by (subst ts2; apply content_delta_id).
  assert (N2 : nth_error (messages (snd ts2)) n = Some m).
  { subst ts2. unfold content_delta. destruct (is_content_delta e);
      cbn [snd messages set_messages];
      rewrite ?image_prompt_messages, ?stage_change_messages; auto. }
  assert (N3 : nth_error (messages (image_ready e (fst ts2) (snd ts2))) n
               = Some m).
  { unfold image_ready. destruct (_ && _); cbn [messages set_messages]; auto.
    apply Hmiss; auto. now rewrite E2. }
  assert (N4 : nth_error
                 (messages (post_processed e (fst ts2)
                              (image_ready e (fst ts2) (snd ts2)))) n
               = Some m).
  { unfold post_processed. destruct (_ && _); cbn [messages set_messages]; auto.
    apply Hmiss; auto. now rewrite E2. }
  set (s4 := post_processed e (fst ts2) (image_ready e (fst ts2) (snd ts2)))
    in *.
  set (ts5 := id_assigned e (fst ts2, s4)).
  assert (N5 : nth_error (messages (snd ts5)) n = Some m).
  { subst ts5. unfold id_assigned. destruct (is_id_assigned e (fst ts2));
      cbn [snd messages set_messages]; auto.
    apply Hmiss; auto. now rewrite E2. }
  intros H2.
  assert (N6 : nth_error (messages (done_event e (fst ts5) (snd ts5))) n
               = Some m).
  { unfold done_event. destruct (truthyB (Event.done e)); auto.
    destruct (truthy (Event.processed_content e));
      cbn [messages set_messages set_agentStage set_isStreaming]; auto. }
  unfold failure. destruct (truthy (Event.error e)); auto.
  cbn [messages set_messages set_agentStage set_isStreaming]. auto.
Qed.

(** A message that the server id does not name stays as it is when the id
    arrives together with an error. *)
Lemma other_messages_untouched_witness :
  let s := snd (send_begin "Hi" sample_clock sample_clock sample_store) in
  let t := mkTurn "" "assistant-1700000000000" in
  let e := Event.mk None None None None None (Some "srv-99") None None
             (Some "boom") in
  nth_error (messages (snd (handle_event e (t, s)))) 0
  = Some (Message.mk "temp-1700000000000" user "Hi"
            "2023-11-14T22:13:20.000Z" None false).
Proof.
  intros s t e.
  apply (other_messages_untouched e t s 0); [reflexivity| |]; discriminate.
Defined.

(** ** Lines that carry no record *)

Lemma one_line_data (p : string) : one_line LF p -> one_line LF ("data: " ++ p).
Proof.
  unfold one_line. intros H. cbn [String.append].
  repeat (rewrite split_other by reflexivity). now rewrite H.
Qed.

Lemma split_lines_rest c (ls : list string) (rest : string) :
  Forall (one_line c) ls -> one_line c rest ->
  split c (fold_right String.append ""
             (map (fun l => l ++ String c "") ls) ++ rest)
  = (ls ++ [rest])%list.
Proof.
  intros Hls Hr. induction Hls as [|l ls Hl _ IH]; [exact Hr|].
  cbn [map fold_right app]. rewrite !append_assoc.
  cbn [String.append]. rewrite split_line by assumption. now rewrite IH.
Qed.

Section Lines.
Context {TD : TextDecoder} {JR : JsonReader}.

(** A line that does not begin with [data: ] (an empty line, a comment, an
    [event:] line) and the line [data: [DONE]] are skipped by both loops,
    which then go on: the sentinel does not end the reading. *)
Theorem noise_lines_skipped (l : string) (pre post : list string)
  (ts : Turn * Store) (rts : RegenTurn * Store) :
  startsWith "data: " l = false \/ slice 6 l = "[DONE]" ->
  send_lines (pre ++ l :: post) ts = send_lines (pre ++ post) ts
  /\ regen_lines (pre ++ l :: post) rts = regen_lines (pre ++ post) rts.
Proof.
  intros H.
  assert (Hs : forall x, send_line l x = x).
  { intros x. unfold send_line. destruct H as [H|H]; rewrite H; auto.
    change (trim "[DONE]") with "[DONE]".
    now destruct (startsWith "data: " l). }
  assert (Hg : forall x, regen_line l x = x).
  { intros x. unfold regen_line. destruct H as [H|H]; rewrite H; auto.
    now destruct (startsWith "data: " l). }
  split.
  - rewrite !send_lines_app. cbn [send_lines fold_left]. now rewrite Hs.
  - rewrite !regen_lines_app. cbn [regen_lines fold_left]. now rewrite Hg.
Qed.

(** In [sendMessage] what follows the last line feed of the response is
    never handled: when the decoded response is [N] lines [data: p] closed
    by line feeds and then a rest without line feed, the action ends as if
    the rest were not there, even when the rest is a whole frame. *)
Theorem send_drops_unterminated_tail (content : string) (c1 c2 : Clock)
  (values : list string) (ps : list string) (rest : string) (s : Store) :
  Forall (one_line LF) ps ->
  one_line LF rest ->
  snd (decode_stream dinit (fold_right String.append "" values))
  = fold_right String.append ""
      (map (fun l => l ++ nl) (map (String.append "data: ") ps)) ++ rest ->
  sendMessage content c1 c2 (Body values None) s
  = snd (send_end (send_lines (map (String.append "data: ") ps)
                     (send_begin content c1 c2 s))).
Proof.
  intros Hps Hr Hdec. unfold sendMessage.
  rewrite send_chunks_whole by reflexivity.
  cbn [new_reader decoder buffer String.append fst snd]. rewrite Hdec.
  unfold nl. rewrite split_lines_rest; auto.
  - now rewrite removelast_last.
  - apply Forall_forall. intros l Hl. apply in_map_iff in Hl.
    destruct Hl as [p [Hp Hin]]. subst l. apply one_line_data.
    rewrite Forall_forall in Hps. now apply Hps.
Qed.

(** In [regenerateMessage] every piece of a chunk is handled, the one
    after its last line feed too. *)
Theorem regen_handles_unterminated_tail (value : string)
  (ls : list string) (rest : string) (rts : RegenTurn * Store) :
  Forall (one_line LF) ls ->
  one_line LF rest ->
  decode value
  = fold_right String.append "" (map (fun l => l ++ nl) ls) ++ rest ->
  regen_chunk value rts = regen_line rest (regen_lines ls rts).
Proof.
  intros Hls Hr Hdec. unfold regen_chunk. rewrite Hdec. unfold nl.
  rewrite split_lines_rest by assumption.
  now rewrite regen_lines_app.
Qed.

End Lines.

(** A comment line and the sentinel between two frames. *)
Lemma noise_lines_skipped_witness :
  let f1 := "data: " ++ js "{'type':'content','content':'a'}" in
  let f2 := "data: " ++ js "{'type':'content','content':'b'}" in
  let ts := send_begin "Hi" sample_clock sample_clock sample_store in
  let rts := regen_open sample_clock 1 chat_store in
  send_lines ([f1] ++ "data: [DONE]" :: [f2]) ts = send_lines ([f1] ++ [f2]) ts
  /\ regen_lines ([f1] ++ "data: [DONE]" :: [f2]) rts
     = regen_lines ([f1] ++ [f2]) rts.
Proof.
  intros f1 f2 ts rts.
  apply (noise_lines_skipped "data: [DONE]" [f1] [f2] ts rts).
  right. reflexivity.
Defined.

(** Two frames, the second without its line feed: [sendMessage] shows the
    first only. *)
Lemma send_drops_unterminated_tail_witness :
  let p1 := js "{'type':'content','content':'Once'}" in
  let f2 := "data: " ++ js "{'type':'content','content':' upon'}" in
  sendMessage "Hi" sample_clock sample_clock
    (Body ["data: " ++ p1 ++ nl ++ f2] None) sample_store
  = snd (send_end (send_lines (map (String.append "data: ") [p1])
                     (send_begin "Hi" sample_clock sample_clock
                        sample_store))).
Proof.
  intros p1 f2.
  apply (send_drops_unterminated_tail "Hi" sample_clock sample_clock
           ["data: " ++ p1 ++ nl ++ f2] [p1] f2 sample_store).
  - repeat constructor.
  - reflexivity.
  - reflexivity.
Defined.

(** The same response in one chunk: [regenerateMessage] handles both. *)
Lemma regen_handles_unterminated_tail_witness :
  let l1 := "data: " ++ js "{'content':'Once'}" in
  let f2 := "data: " ++ js "{'content':' upon'}" in
  let rts := regen_open sample_clock 1 chat_store in
  regen_chunk (l1 ++ nl ++ f2) rts = regen_line f2 (regen_lines [l1] rts).
Proof.
  intros l1 f2 rts.
  apply (regen_handles_unterminated_tail (l1 ++ nl ++ f2) [l1] f2 rts).
  - repeat constructor.
  - reflexivity.
  - reflexivity.
Defined.

(** ** The target of regenerateMessage *)

Lemma findIndex_some {A : Type} (p : A -> bool) (l : list A) (i : nat) :
  findIndex p l = Some i ->
  exists x, nth_error l i = Some x /\ p x = true
            /\ forall j y, j < i -> nth_error l j = Some y -> p y = false.
Proof.
  revert i. induction l as [|a r IH]; intros i H; cbn [findIndex] in H;
    [discriminate|].
  destruct (p a) eqn:Ea.
  - injection H as <-. exists a. repeat split; auto. intros j y Hj. lia.
  - destruct (findIndex p r) as [k|]; [|discriminate].
    injection H as <-. destruct (IH k eq_refl) as [x [Hx [Hp Hlt]]].
    exists x. repeat split; auto. intros [|j] y Hj Hy; cbn [nth_error] in Hy.
    + now injection Hy as <-.
    + apply (Hlt j); auto. lia.
Qed.

Lemma map_index_same {A : Type} (f : A -> nat -> A) (i0 : nat) (l : list A) :
  (forall m i, i0 <= i -> f m i = m) -> map_index f i0 l = l.
Proof.
  revert i0. induction l as [|x r IH]; intros i0 H; cbn [map_index]; auto.
  rewrite H by lia. f_equal. apply IH. intros m i Hi. apply H. lia.
Qed.

(** A [map] that rewrites the element at one index. *)
Lemma map_index_at {A : Type} (g : A -> A) (l : list A) :
  forall k i0 j, j = i0 + k ->
    map_index (fun m i => if Nat.eqb i j then g m else m) i0 l
    = (firstn k l
         ++ match nth_error l k with
            | Some m => g m :: skipn (S k) l
            | None => []
            end)%list.
Proof.
  induction l as [|x r IH]; intros k i0 j Hj.
  - destruct k; reflexivity.
  - cbn [map_index]. destruct k as [|k].
    + replace (Nat.eqb i0 j) with true by (symmetry; apply Nat.eqb_eq; lia).
      cbn [firstn nth_error skipn app]. f_equal.
      apply map_index_same. intros m i Hi.
      replace (Nat.eqb i j) with false; auto.
      symmetry. apply Nat.eqb_neq. lia.
    + replace (Nat.eqb i0 j) with false by (symmetry; apply Nat.eqb_neq; lia).
      cbn [firstn nth_error skipn app]. f_equal. apply IH. lia.
Qed.

Lemma regen_begin_fetching (messageId : option string) (s s1 : Store)
  (url : string) (i : nat) :
  regen_begin messageId s = (Fetching url i, s1) ->
  s1 = set_isStreaming true s
  /\ exists m, nth_error (messages s) i = Some m.
Proof.
  unfold regen_begin. intros H.
  destruct (activeSession s) as [session|]; [|discriminate].
  destruct (truthy messageId); [|discriminate].
  destruct (findIndex _ (messages s)) as [k|] eqn:Ef; [|discriminate].
  injection H as _ <- <-. split; auto.
  destruct (findIndex_some _ _ _ Ef) as [m [Hm _]]. now exists m.
Qed.

(** When [regenerateMessage] goes on to its [fetch], there is an active
    session and a non-empty id, the store is set streaming and nothing
    else, and the message it will replace is the first one of the list
    that carries the id. *)
Theorem regen_begin_finds_first (messageId : option string) (s s1 : Store)
  (url : string) (i : nat) :
  regen_begin messageId s = (Fetching url i, s1) ->
  exists session m,
    activeSession s = Some session
    /\ truthy messageId = true
    /\ url = "/api/chat/sessions/" ++ Session.id session ++ "/regenerate/"
               ++ text messageId
    /\ s1 = set_isStreaming true s
    /\ nth_error (messages s) i = Some m
    /\ Message.id m = text messageId
    /\ forall j y, j < i -> nth_error (messages s) j = Some y ->
                   Message.id y <> text messageId.
Proof.
  unfold regen_begin. intros H.
  destruct (activeSession s) as [session|]; [|discriminate].
  destruct (truthy messageId) eqn:Et; [|discriminate].
  destruct (findIndex _ (messages s)) as [k|] eqn:Ef; [|discriminate].
  injection H as <- <- <-.
  destruct (findIndex_some _ _ _ Ef) as [m [Hm [Hp Hlt]]].
  exists session, m. repeat split; auto.
  - now apply String.eqb_eq.
  - intros j y Hj Hy. apply String.eqb_neq. now apply (Hlt j).
Qed.


Lemma regen_begin_finds_first_witness :
  exists session m,
    activeSession chat_store = Some session
    /\ truthy (Some "a1") = true
    /\ "/api/chat/sessions/s1/regenerate/a1"
       = "/api/chat/sessions/" ++ Session.id session ++ "/regenerate/"
           ++ text (Some "a1")
    /\ set_isStreaming true chat_store = set_isStreaming true chat_store
    /\ nth_error (messages chat_store) 1 = Some m
    /\ Message.id m = text (Some "a1")
    /\ forall j y, j < 1 -> nth_error (messages chat_store) j = Some y ->
                   Message.id y <> text (Some "a1").
Proof.
  apply (regen_begin_finds_first (Some "a1") chat_store
           (set_isStreaming true chat_store)
           "/api/chat/sessions/s1/regenerate/a1" 1).
  reflexivity.
Defined.

Lemma regen_open_messages (c : Clock) (i : nat) (s : Store) (m : Message) :
  nth_error (messages s) i = Some m ->
  messages (snd (regen_open c i s))
  = (firstn i (messages s) ++ [Message.reset ("regen-" ++ now c) m])%list.
Proof.
  intros En. unfold regen_open. cbn [snd messages set_messages newMsgId].
  rewrite (map_index_at (Message.reset ("regen-" ++ now c)) (messages s) i 0 i)
    by reflexivity.
  rewrite En.
  assert (Hl : List.length (firstn i (messages s)) = i).
  { apply firstn_length_le. apply Nat.lt_le_incl.
    apply nth_error_Some. congruence. }
  rewrite firstn_app, Hl.
  replace (i + 1 - i) with 1 by lia. cbn [firstn].
  rewrite firstn_firstn. now replace (Init.Nat.min (i + 1) i) with i by lia.
Qed.

(** After an ok response the list is cut right behind the target, which is
    emptied and given the provisional id; the messages in front of it stay
    as they are.  When the list has meanwhile become too short to hold the
    index, nothing changes. *)
Theorem regen_open_truncates (c : Clock) (i : nat) (s : Store) :
  messages (snd (regen_open c i s))
  = match nth_error (messages s) i with
    | Some m =>
        (firstn i (messages s) ++ [Message.reset ("regen-" ++ now c) m])%list
    | None => messages s
    end.
Proof.
  destruct (nth_error (messages s) i) as [m|] eqn:En.
  - now apply regen_open_messages.
  - unfold regen_open. cbn [snd messages set_messages newMsgId].
    rewrite (map_index_at (Message.reset ("regen-" ++ now c)) (messages s)
               i 0 i) by reflexivity.
    rewrite En, app_nil_r, firstn_firstn.
    apply nth_error_None in En.
    replace (Init.Nat.min (i + 1) i) with i by lia.
    now apply firstn_all2.
Qed.


(** ** Deltas in regenerateMessage *)

Lemma regen_event_plain (e : Event) (t : RegenTurn) (s : Store) :
  truthy (Event.message_id e) = false ->
  truthy (Event.error e) = false ->
  let r := regen_event e (t, s) in
  newMsgId (fst r) = newMsgId t
  /\ newContent (fst r) = newContent t ++ regen_delta_of e
  /\ messages (snd r)
     = if truthy (Event.content e)
       then update_id (newMsgId t)
              (Message.with_content (newContent t ++ regen_delta_of e))
              (messages s)
       else messages s.
Proof.
  intros Hm He r. subst r. unfold regen_event, regen_delta_of.
  rewrite Hm, He.
  destruct (truthy (Event.content e)), (truthyB (Event.done e));
    cbn [fst snd newMsgId newContent messages set_messages set_isStreaming];
    rewrite ?append_nil_r; auto.
Qed.

(** In [regenerateMessage], records without id and without error leave the
    regenerated message at its place with, as its content, the contents of
    all these records concatenated in arrival order, whatever their type:
    stage chunks and image records count as deltas here. *)
Theorem regen_contents_concatenate (c : Clock) (i : nat) (s : Store)
  (m : Message) (es : list Event) :
  nth_error (messages s) i = Some m ->
  Forall (fun e => truthy (Event.message_id e) = false
                   /\ truthy (Event.error e) = false) es ->
  let ts := regen_events es (regen_open c i s) in
  nth_error (messages (snd ts)) i
  = Some (Message.with_content
            (fold_right String.append "" (map regen_delta_of es))
            (Message.reset ("regen-" ++ now c) m))
  /\ List.length (messages (snd ts)) = i + 1.
Proof.
  intros Hn Hes ts. subst ts.
  assert (Hgen : forall es t s0 m0,
    Forall (fun e => truthy (Event.message_id e) = false
                     /\ truthy (Event.error e) = false) es ->
    nth_error (messages s0) i = Some m0 ->
    Message.id m0 = newMsgId t ->
    Message.content m0 = newContent t ->
    nth_error (messages (snd (regen_events es (t, s0)))) i
    = Some (Message.with_content
              (newContent t
                 ++ fold_right String.append "" (map regen_delta_of es)) m0)
    /\ List.length (messages (snd (regen_events es (t, s0))))
       = List.length (messages s0)).
  { clear. induction es as [|e es IH]; intros t s0 m0 Hes Hn Hid Hc.
    - cbn [regen_events fold_left map fold_right snd].
      rewrite append_nil_r, Hn. split; auto. f_equal.
      destruct m0. cbn in *. now subst.
    - inversion Hes as [|e' es' [Hm He] Hes']; subst.
      cbn [regen_events fold_left map fold_right].
      fold (regen_events es (regen_event e (t, s0))).
      destruct (regen_event_plain e t s0 Hm He) as [E1 [E2 E3]].
      destruct (regen_event e (t, s0)) as [t1 s1]. cbn [fst snd] in *.
      destruct (truthy (Event.content e)) eqn:Ec.
      + destruct (IH t1 s1
                    (Message.with_content (newContent t ++ regen_delta_of e) m0)
                    Hes') as [H1 H2].
        * rewrite E3, update_id_nth, Hn. cbn [option_map].
          apply String.eqb_eq in Hid. now rewrite Hid.
        * now rewrite E1.
        * now rewrite E2.
        * rewrite E2, append_assoc in H1. rewrite with_content_twice in H1.
          split; auto. rewrite H2, E3. unfold update_id. apply length_map.
      + assert (Hd : regen_delta_of e = "")
          by (unfold regen_delta_of; now rewrite Ec).
        rewrite Hd in *. rewrite append_nil_r in E2. cbn [String.append].
        destruct (IH t1 s1 m0 Hes') as [H1 H2]; try congruence.
        rewrite E2 in H1. split; congruence. }
  pose proof (regen_open_messages c i s m Hn) as Ho.
  assert (Hl : List.length (firstn i (messages s)) = i).
  { apply firstn_length_le. apply Nat.lt_le_incl.
    apply nth_error_Some. congruence. }
  destruct (regen_open c i s) as [t0 s0] eqn:E0. cbn [snd] in Ho.
  assert (Et : t0 = mkRegenTurn "" ("regen-" ++ now c)).
  { unfold regen_open in E0. now injection E0 as <- _. }
  subst t0.
  destruct (Hgen es (mkRegenTurn "" ("regen-" ++ now c)) s0
              (Message.reset ("regen-" ++ now c) m) Hes) as [H1 H2]; auto.
  - rewrite Ho, nth_error_app2 by lia. rewrite Hl, Nat.sub_diag. reflexivity.
  - split; [exact H1|]. rewrite H2, Ho, length_app, Hl. reflexivity.
Qed.

(** A delta, a director chunk and a completion mark: both contents reach
    the regenerated message. *)
Lemma regen_contents_concatenate_witness :
  let ts := regen_events
              [ContentDelta "Once"; DirectorChunk " upon"; Done None]
              (regen_open sample_clock 1 chat_store) in
  nth_error (messages (snd ts)) 1
  = Some (Message.mk "regen-1700000000000" assistant "Once upon"
            "2023-11-14T22:13:05.000Z" None false)
  /\ List.length (messages (snd ts)) = 1 + 1.
Proof.
  apply (regen_contents_concatenate sample_clock 1 chat_store
           (Message.mk "a1" assistant "Once upon a time"
              "2023-11-14T22:13:05.000Z" None false)
           [ContentDelta "Once"; DirectorChunk " upon"; Done None]).
  - reflexivity.
  - repeat constructor.
Defined.

(** ** The whole of regenerateMessage *)

Lemma map_index_length {A B : Type} (f : A -> nat -> B) (i0 : nat)
  (l : list A) :
  List.length (map_index f i0 l) = List.length l.
Proof.
  revert i0. induction l as [|x r IH]; intros i0; cbn [map_index List.length];
    auto.
Qed.

Lemma regen_event_length e ts :
  List.length (messages (snd (regen_event e ts)))
  = List.length (messages (snd ts)).
Proof.
  destruct ts as [t s]. unfold regen_event.
  destruct (truthy (Event.content e)), (truthy (Event.message_id e)),
    (truthyB (Event.done e)), (truthy (Event.error e));
    cbn [fst snd messages set_messages set_isStreaming newMsgId];
    unfold update_id; rewrite ?length_map; reflexivity.
Qed.

Section WholeRegen.
Context {TD : TextDecoder} {JR : JsonReader}.

Lemma regen_chunks_length values ts :
  List.length (messages (snd (regen_chunks values ts)))
  = List.length (messages (snd ts)).
Proof.
  assert (Hline : forall l x,
            List.length (messages (snd (regen_line l x)))
            = List.length (messages (snd x))).
  { intros l x. unfold regen_line. destruct (startsWith "data: " l); auto.
    destruct (String.eqb _ _); auto.
    destruct (JSON_parse _); auto. apply regen_event_length. }
  assert (Hlines : forall ls x,
            List.length (messages (snd (regen_lines ls x)))
            = List.length (messages (snd x))).
  { induction ls as [|l ls IH]; intros x; cbn [regen_lines fold_left]; auto.
    fold (regen_lines ls (regen_line l x)). now rewrite IH, Hline. }
  revert ts. induction values as [|v vs IH]; intros ts;
    cbn [regen_chunks fold_left]; auto.
  fold (regen_chunks vs (regen_chunk v ts)). rewrite IH.
  unfold regen_chunk. apply Hlines.
Qed.

(** Once [regenerateMessage] has gone on to its [fetch], it leaves the
    store not streaming whatever the server answers.  After a refused
    request the list has its old length; after an ok response it ends at
    the target, whatever the body carries and whether or not a read
    throws. *)
Theorem regenerateMessage_settles (messageId : option string) (c : Clock)
  (resp : Response) (s s1 : Store) (url : string) (i : nat) :
  regen_begin messageId s = (Fetching url i, s1) ->
  let s' := regenerateMessage messageId c resp s in
  isStreaming s' = false
  /\ List.length (messages s')
     = match resp with
       | Refused _ => List.length (messages s)
       | Body _ _ => i + 1
       end.
Proof.
  intros Hb s'. subst s'. unfold regenerateMessage. rewrite Hb.
  destruct (regen_begin_fetching _ _ _ _ _ Hb) as [Hs1 [m Hn]].
  subst s1.
  destruct resp as [message|values broken].
  - split; [reflexivity|]. unfold regen_catch.
    cbn [messages set_messages set_isStreaming]. apply map_index_length.
  - assert (Ho : List.length
                   (messages (snd (regen_open c i (set_isStreaming true s))))
                 = i + 1).
    { rewrite (regen_open_messages c i (set_isStreaming true s) m Hn).
      cbn [messages set_isStreaming]. rewrite length_app.
      cbn [List.length].
      rewrite firstn_length_le; auto.
      apply Nat.lt_le_incl, nth_error_Some. congruence. }
    pose proof (regen_chunks_length values
                  (regen_open c i (set_isStreaming true s))) as Hc.
    destruct broken as [message|]; (split; [reflexivity|]).
    + unfold regen_catch. cbn [messages set_messages set_isStreaming].
      rewrite map_index_length. congruence.
    + cbn [messages set_isStreaming]. congruence.
Qed.

(** A refused regeneration (the request fails or the status is not ok)
    writes the text of the exception over the content of the old message
    and flags it; the message keeps its id and its place, and the messages
    around it stay, those behind it too. *)
Theorem regen_refused_overwrites (messageId : option string) (c : Clock)
  (message : string) (s s1 : Store) (url : string) (i : nat) (m : Message) :
  regen_begin messageId s = (Fetching url i, s1) ->
  nth_error (messages s) i = Some m ->
  messages (regenerateMessage messageId c (Refused message) s)
  = (firstn i (messages s)
       ++ Message.with_error (error_text message) m
       :: skipn (S i) (messages s))%list.
Proof.
  intros Hb Hn. unfold regenerateMessage. rewrite Hb.
  destruct (regen_begin_fetching _ _ _ _ _ Hb) as [Hs1 _].
  subst s1. unfold regen_catch. cbn [messages set_messages set_isStreaming].
  rewrite (map_index_at (Message.with_error (error_text message))
             (messages s) i 0 i) by reflexivity.
  now rewrite Hn.
Qed.

End WholeRegen.

Lemma regenerateMessage_settles_witness :
  let s' := regenerateMessage (Some "u1") sample_clock
              (Body [frame "{'content':'Hi'}"] (Some "network error"))
              chat_store in
  isStreaming s' = false /\ List.length (messages s') = 0 + 1.
Proof.
  apply (regenerateMessage_settles (Some "u1") sample_clock
           (Body [frame "{'content':'Hi'}"] (Some "network error"))
           chat_store (set_isStreaming true chat_store)
           "/api/chat/sessions/s1/regenerate/u1" 0).
  reflexivity.
Defined.

Lemma regen_refused_overwrites_witness :
  messages (regenerateMessage (Some "u1") sample_clock
              (Refused "Regeneration failed") chat_store)
  = [Message.mk "u1" user (error_text "Regeneration failed")
       "2023-11-14T22:13:00.000Z" None true;
     Message.mk "a1" assistant "Once upon a time" "2023-11-14T22:13:05.000Z"
       None false].
Proof.
  apply (regen_refused_overwrites (Some "u1") sample_clock
           "Regeneration failed" chat_store (set_isStreaming true chat_store)
           "/api/chat/sessions/s1/regenerate/u1" 0
           (Message.mk "u1" user "Tell me a story" "2023-11-14T22:13:00.000Z"
              None false)); reflexivity.
Defined.

(** ** Sessions *)

Lemma deleteSession_active (sessionId : string) (s : Store) (a : Session) :
  activeSession s = Some a -> Session.id a = sessionId ->
  messages (deleteSession sessionId s) = [].
Proof.
  intros Ha Hid. unfold deleteSession. cbn [messages]. rewrite Ha.
  apply String.eqb_eq in Hid. now rewrite Hid.
Qed.



Section DeletedSession.
Context {TD : TextDecoder} {JR : JsonReader}.

(** When the active session is deleted while a turn of [sendMessage] is
    reading, the chunks that still arrive find no message to write to: the
    message list stays empty, whatever they carry. *)
Theorem deleted_session_stays_empty (sessionId : string) (s : Store)
  (a : Session) (values : list string) (r : Reader) (t : Turn) :
  activeSession s = Some a ->
  Session.id a = sessionId ->
  messages (snd (snd (send_chunks values (r, (t, deleteSession sessionId s)))))
  = [].
Proof.
  intros Ha Hid.
  pose proof (send_chunks_keeps values r (t, deleteSession sessionId s)) as K.
  apply Forall2_keeps_facts in K. destruct K as [L _].
  cbn [snd] in L.
  rewrite (deleteSession_active sessionId s a Ha Hid) in L.
  now apply length_zero_iff_nil.
Qed.

End DeletedSession.

Lemma deleted_session_stays_empty_witness :
  messages
    (snd (snd (send_chunks [frame "{'type':'content','content':'late'}"]
                 (new_reader,
                  (mkTurn "Once" "a1", deleteSession "s1" chat_store)))))
  = [].
Proof.
  apply (deleted_session_stays_empty "s1" chat_store (Session.mk "s1")
           [frame "{'type':'content','content':'late'}"] new_reader
           (mkTurn "Once" "a1")); reflexivity.
Defined.

Lemma truthy_image (m : Message) :
  truthy (Message.image_url m) = true ->
  Message.image_url m = Some (text (Message.image_url m)).
Proof. destruct (Message.image_url m) as [[|x u]|]; now try discriminate. Qed.

(** [loadSession] replaces the messages by those of the loaded session and
    the gallery by one entry for every loaded message that has an image, in
    the order of the messages: what the gallery held before is dropped, and
    every entry names a loaded message.  [isStreaming] and the session list
    stay.  A session without a messages field changes nothing at all. *)
Theorem loadSession_gallery (session : Session) (ms : list Message)
  (s : Store) :
  let s' := loadSession session (Some ms) s in
  messages s' = ms
  /\ activeSession s' = Some session
  /\ (forall img, In img (sessionImages s') <->
        exists m, In m ms /\ truthy (Message.image_url m) = true
                  /\ Message.image_url m = Some (Image.url img)
                  /\ Message.id m = Image.messageId img)
  /\ map Image.messageId (sessionImages s')
     = map Message.id (filter (fun m => truthy (Message.image_url m)) ms)
  /\ isStreaming s' = isStreaming s
  /\ sessions s' = sessions s
  /\ loadSession session None s = s.
Proof.
  intros s'. subst s'. unfold loadSession, session_images.
  cbn [messages activeSession sessionImages isStreaming sessions].
  repeat split; auto.
  - intros H. apply in_map_iff in H. destruct H as [m [Hm Hin]].
    apply filter_In in Hin. destruct Hin as [Hin Ht]. exists m. subst img.
    cbn [Image.url Image.messageId]. repeat split; auto.
    now destruct (truthy_image m Ht).
  - intros [m [Hin [Ht [Hu Hid]]]]. apply in_map_iff. exists m. split.
    + destruct img as [u i]. cbn [Image.url Image.messageId] in *.
      rewrite Hu, Hid. reflexivity.
    + apply filter_In. auto.
  - rewrite map_map. reflexivity.
Qed.

(** ** LLM configurations *)

Lemma find_some_id (configId : string) (l : list LLMConfig) (a : LLMConfig) :
  find (fun c => String.eqb (LLMConfig.id c) configId) l = Some a ->
  In a l /\ LLMConfig.id a = configId.
Proof.
  intros H. apply find_some in H. destruct H as [Hin He].
  apply String.eqb_eq in He. auto.
Qed.



(** Deleting the configuration that was just made active leaves no active
    configuration: none is selected, none of that id is listed, and no
    listed configuration carries the flag. *)
Theorem delete_active_config (configId : string) (st : LLMState) :
  let st' := deleteLLMConfig configId (setActiveLLMConfig configId st) in
  activeLLMConfig st' = None
  /\ ~ In configId (map LLMConfig.id (llmConfigs st'))
  /\ (forall c, In c (llmConfigs st') -> LLMConfig.is_active c = false)
  /\ (forall c, In c (llmConfigs st) -> LLMConfig.id c <> configId ->
        In (LLMConfig.with_is_active false c) (llmConfigs st')).
Proof.
  intros st'. subst st'. unfold deleteLLMConfig, setActiveLLMConfig, active_is.
  cbn [llmConfigs activeLLMConfig]. split; [|split; [|split]].
  - destruct (find _ (llmConfigs st)) as [a|] eqn:E; auto.
    apply find_some_id in E. destruct E as [_ Hid].
    apply String.eqb_eq in Hid. now rewrite Hid.
  - intros H. apply in_map_iff in H. destruct H as [c [Hc Hin]].
    apply filter_In in Hin. destruct Hin as [_ Hn].
    apply negb_true_iff, String.eqb_neq in Hn. congruence.
  - intros c Hin. apply filter_In in Hin. destruct Hin as [Hin Hn].
    apply in_map_iff in Hin. destruct Hin as [c0 [Hc _]]. subst c.
    cbn [LLMConfig.is_active LLMConfig.id LLMConfig.with_is_active] in *.
    now apply negb_true_iff in Hn.
  - intros c Hin Hne. apply filter_In. split.
    + apply in_map_iff. exists c. split; auto.
      apply String.eqb_neq in Hne. now rewrite Hne.
    + cbn [LLMConfig.id LLMConfig.with_is_active].
      apply negb_true_iff, String.eqb_neq. exact Hne.
Qed.

(** ** Active world books *)

(** [toggleActiveWorldbook] flips whether the id of the world book is among
    the active ones and leaves the world books of other ids as they are;
    toggling a world book that was not active twice gives the list back. *)
Theorem toggle_flips (wb : Worldbook) (l : list Worldbook) :
  let l' := toggleActiveWorldbook wb l in
  (In (Worldbook.id wb) (map Worldbook.id l')
   <-> ~ In (Worldbook.id wb) (map Worldbook.id l))
  /\ (forall x, Worldbook.id x <> Worldbook.id wb -> (In x l' <-> In x l))
  /\ (~ In (Worldbook.id wb) (map Worldbook.id l) ->
      toggleActiveWorldbook wb l' = l).
Proof.
  intros l'. subst l'. unfold toggleActiveWorldbook at 1 2 3.
  set (p := fun x => String.eqb (Worldbook.id x) (Worldbook.id wb)).
  assert (Hfilter : forall k,
            (forall x, In x k -> Worldbook.id x <> Worldbook.id wb) ->
            filter (fun x => negb (p x)) k = k).
  { induction k as [|x k IH]; intros H; cbn [filter]; auto.
    assert (Hx : p x = false)
      by (apply String.eqb_neq, H; now left).
    rewrite Hx. cbn [negb]. f_equal. apply IH. intros y Hy. apply H.
    now right. }
  destruct (find p l) as [a|] eqn:E.
  - apply find_some in E. destruct E as [Hin Hp]. subst p. cbn in Hp.
    apply String.eqb_eq in Hp.
    split; [|split].
    + split.
      * intros H. apply in_map_iff in H. destruct H as [x [Hx Hx']].
        apply filter_In in Hx'. destruct Hx' as [_ Hn].
        apply negb_true_iff, String.eqb_neq in Hn. congruence.
      * intros H. destruct H. rewrite <- Hp. now apply in_map.
    + intros x Hx. rewrite filter_In. split; [now intros [? _]|].
      intros H. split; auto. apply negb_true_iff, String.eqb_neq. exact Hx.
    + intros H. destruct H. rewrite <- Hp. now apply in_map.
  - assert (Hno : forall x, In x l -> Worldbook.id x <> Worldbook.id wb).
    { intros x Hx. pose proof (find_none _ _ E x Hx) as Hf. subst p.
      cbn in Hf. now apply String.eqb_neq. }
    split; [|split].
    + split.
      * intros _ H. apply in_map_iff in H. destruct H as [x [Hx Hx']].
        now apply (Hno x).
      * intros _. rewrite map_app. apply in_or_app. right. now left.
    + intros x Hx. rewrite in_app_iff. split; [|auto].
      intros [H|[H|[]]]; auto. subst x. congruence.
    + intros _. unfold toggleActiveWorldbook. fold p.
      assert (Hf : find p (l ++ [wb]) = Some wb).
      { clear Hfilter. induction l as [|x l IH]; cbn [app find].
        - subst p. cbn. now rewrite String.eqb_refl.
        - cbn [find] in E. destruct (p x) eqn:Ex; [discriminate|].
          apply IH; auto. intros y Hy. apply Hno. now right. }
      rewrite E, Hf, filter_app. cbn [filter].
      rewrite String.eqb_refl. cbn [negb]. rewrite app_nil_r.
      now apply Hfilter.
Qed.

(** ** Two turns in flight *)

Lemma set_nth_other {A : Type} (k j : nat) (x : A) (l : list A) :
  j <> k -> nth_error (set_nth k x l) j = nth_error l j.
Proof.
  revert k j. induction l as [|y r IH]; intros k j H.
  - now destruct k.
  - destruct k as [|k], j as [|j]; cbn [set_nth nth_error]; auto;
      try congruence.
Qed.

Section TwoTurns.
Context {TD : TextDecoder} {JR : JsonReader}.

(** [isStreaming] is one flag for all calls of [sendMessage]: when the
    stream of one call ends, the store is set not streaming and the agent
    stage is cleared although another call is still reading, and that other
    call stays in flight with its locals. *)
Theorem finish_clears_streaming_for_all (w : World) (k j : nat)
  (x y : Reader * Turn) :
  nth_error (turns w) k = Some (Some x) ->
  nth_error (turns w) j = Some (Some y) ->
  j <> k ->
  let w' := step w (Finish k) in
  isStreaming (store w') = false
  /\ agentStage (store w') = None
  /\ messages (store w') = messages (store w)
  /\ nth_error (turns w') k = Some None
  /\ nth_error (turns w') j = Some (Some y).
Proof.
  intros Hk Hj Hne w'. subst w'. cbn [step]. rewrite Hk.
  destruct x as [r t]. cbn [store turns send_end snd].
  repeat split.
  - clear Hj Hne. revert k Hk. generalize (turns w) as l.
    induction l as [|a l IH]; intros [|k] Hk; try discriminate; auto.
    cbn [set_nth nth_error] in *. now apply IH.
  - now rewrite set_nth_other.
Qed.

End TwoTurns.

(** Two turns are started and the first one ends: the store is not
    streaming while the second is still in flight. *)
Lemma finish_clears_streaming_for_all_witness :
  let w := run (mkWorld [] sample_store)
             [Start "One" sample_clock sample_clock;
              Start "Two" (mkClock "1700000000001" "2023-11-14T22:13:20.001Z")
                (mkClock "1700000000001" "2023-11-14T22:13:20.001Z")] in
  let w' := step w (Finish 0) in
  isStreaming (store w') = false
  /\ agentStage (store w') = None
  /\ messages (store w') = messages (store w)
  /\ nth_error (turns w') 0 = Some None
  /\ nth_error (turns w') 1
     = Some (Some (new_reader, mkTurn "" "assistant-1700000000001")).
Proof.
  intros w.
  apply (finish_clears_streaming_for_all w 0 1
           (new_reader, mkTurn "" "assistant-1700000000000")
           (new_reader, mkTurn "" "assistant-1700000000001"));
    [reflexivity|reflexivity|discriminate].
Defined.
